(** * then-request: body normalisation, header merge and dispatch

    A shallow embedding of [src/index.ts].  JavaScript values are a small
    tagged union, objects used as maps are association lists in insertion
    order (the order of [Object.keys]), a promise is its settlement state,
    and the executor of [request] is written in a state-and-exception
    monad whose state holds the caller's options object, the promise being
    built and the trace of calls made to the collaborators (the body's
    [getHeaders], the transport, the body's [pipe]). *)

From Stdlib Require Import String Ascii List ZArith Bool Lia.
From Stdlib.Strings Require Import Byte.
From Stdlib Require Import DecimalString.
Import ListNotations.
Local Open Scope string_scope.

(** ** JavaScript values *)

Module Js.

Inductive errkind := ErrorK | TypeErrorK.

(** The values the program can be handed.  Strings are held as their UTF-8
    bytes, numbers are the integers.  [VStream] stands for every object
    whose [pipe] property is a function, [VObject] and [VFunction] for
    those objects and functions that have no such property. *)
Inductive value :=
| VUndefined
| VNull
| VBool (b : bool)
| VNum (n : Z)
| VStr (s : string)
| VBuffer (bytes : list byte)
| VStream (content : list byte)
| VObject (id : nat)
| VFunction (id : nat)
| VError (k : errkind) (msg : string).

(** [!!v] *)
Definition truthy (v : value) : bool :=
  match v with
  | VUndefined | VNull => false
  | VBool b => b
  | VNum n => negb (n =? 0)%Z
  | VStr s => negb (s =? EmptyString)
  | _ => true
  end.

(** [typeof v] *)
Definition typeof (v : value) : string :=
  match v with
  | VUndefined => "undefined"
  | VNull => "object"
  | VBool _ => "boolean"
  | VNum _ => "number"
  | VStr _ => "string"
  | VFunction _ => "function"
  | VBuffer _ | VStream _ | VObject _ | VError _ _ => "object"
  end.

(** [Buffer.isBuffer(v)] *)
Definition isBuffer (v : value) : bool :=
  match v with VBuffer _ => true | _ => false end.

(** [typeof v.pipe === 'function'], for a [v] that is neither [null] nor
    [undefined] *)
Definition has_pipe (v : value) : bool :=
  match v with VStream _ => true | _ => false end.

(** ['' + n] for a natural number, and for an integer *)
Definition string_of_nat (n : nat) : string :=
  NilEmpty.string_of_uint (Nat.to_uint n).

Definition string_of_Z (n : Z) : string :=
  match n with
  | Z0 => "0"
  | Zpos p => NilEmpty.string_of_uint (Pos.to_uint p)
  | Zneg p => "-" ++ NilEmpty.string_of_uint (Pos.to_uint p)
  end.

(** [Buffer.from(s)]: the UTF-8 bytes of the string *)
Definition Buffer_from (s : string) : list byte := list_byte_of_string s.

(** [s.toUpperCase()] and [s.toLowerCase()] on the ASCII letters; header
    names and verbs are ASCII. *)
Definition upper_ascii (c : ascii) : ascii :=
  let n := nat_of_ascii c in
  if (97 <=? n)%nat && (n <=? 122)%nat then ascii_of_nat (n - 32) else c.

Definition lower_ascii (c : ascii) : ascii :=
  let n := nat_of_ascii c in
  if (65 <=? n)%nat && (n <=? 90)%nat then ascii_of_nat (n + 32) else c.

Fixpoint toUpperCase (s : string) : string :=
  match s with
  | EmptyString => EmptyString
  | String c r => String (upper_ascii c) (toUpperCase r)
  end.

Fixpoint toLowerCase (s : string) : string :=
  match s with
  | EmptyString => EmptyString
  | String c r => String (lower_ascii c) (toLowerCase r)
  end.

(** *** Objects used as maps

    Keys in insertion order; an assignment to a present key keeps its
    place, an assignment to an absent key appends. *)
Section Obj.
Context {V : Type}.

Definition obj := list (string * V).

Fixpoint obj_get (o : obj) (k : string) : option V :=
  match o with
  | [] => None
  | (k', v) :: r => if k' =? k then Some v else obj_get r k
  end.

Fixpoint obj_set (o : obj) (k : string) (v : V) : obj :=
  match o with
  | [] => [(k, v)]
  | (k', v') :: r =>
      if k' =? k then (k', v) :: r else (k', v') :: obj_set r k v
  end.

Definition obj_keys (o : obj) : list string := map fst o.

(** [{...a, ...b}] laid over [a] *)
Definition obj_spread (a b : obj) : obj :=
  fold_left (fun acc kv => obj_set acc (fst kv) (snd kv)) b a.
End Obj.
Arguments obj V : clear implicits.

(** *** JSON data and [JSON.stringify] *)
#[local] Set Warnings "-register-all".
Inductive json_value :=
| JNull
| JBool (b : bool)
| JNum (n : Z)
| JStr (s : string)
| JArr (items : list json_value)
| JObj (props : list (string * json_value)).

Definition json_truthy (j : json_value) : bool :=
  match j with
  | JNull => false
  | JBool b => b
  | JNum n => negb (n =? 0)%Z
  | JStr s => negb (s =? EmptyString)
  | JArr _ | JObj _ => true
  end.

Definition hex_digit (n : nat) : ascii :=
  if (n <? 10)%nat then ascii_of_nat (48 + n) else ascii_of_nat (87 + n).

(** One character of a quoted JSON string. *)
Definition quote_char (c : ascii) : string :=
  let n := nat_of_ascii c in
  if (n =? 34)%nat then String (ascii_of_nat 92) (String c EmptyString)
  else if (n =? 92)%nat then "\\"
  else if (n =? 8)%nat then "\b"
  else if (n =? 9)%nat then "\t"
  else if (n =? 10)%nat then "\n"
  else if (n =? 12)%nat then "\f"
  else if (n =? 13)%nat then "\r"
  else if (n <? 32)%nat then
    "\u00" ++ String (hex_digit (n / 16)) (String (hex_digit (n mod 16)) EmptyString)
  else String c EmptyString.

Fixpoint quote_body (s : string) : string :=
  match s with
  | EmptyString => EmptyString
  | String c r => quote_char c ++ quote_body r
  end.

Definition quote (s : string) : string :=
  String (ascii_of_nat 34) (quote_body s ++ String (ascii_of_nat 34) EmptyString).

Fixpoint join (sep : string) (l : list string) : string :=
  match l with
  | [] => EmptyString
  | [x] => x
  | x :: r => x ++ sep ++ join sep r
  end.

Fixpoint JSON_stringify (j : json_value) : string :=
  match j with
  | JNull => "null"
  | JBool true => "true"
  | JBool false => "false"
  | JNum n => string_of_Z n
  | JStr s => quote s
  | JArr items => "[" ++ join "," (map JSON_stringify items) ++ "]"
  | JObj props =>
      "{" ++ join "," (map (fun kv => quote (fst kv) ++ ":" ++ JSON_stringify (snd kv)) props)
          ++ "}"
  end.

End Js.

Import Js.

(** ** Header maps and promises *)

(** A header value: [string | string[]]. *)
Inductive hval := HStr (s : string) | HArr (l : list string).

Definition IncomingHttpHeaders := obj hval.

Module Caseless.

(** Modelled from the spec: the external [caseless] helper, "case-insensitive
    lookup/set semantics" over the wrapped header object.  [has] answers with
    the first stored key that equals [name] once both are lower-cased. *)
Fixpoint has (dict : IncomingHttpHeaders) (name : string) : option string :=
  match dict with
  | [] => None
  | (k, _) :: r =>
      if toLowerCase k =? toLowerCase name then Some k else has r name
  end.

(** Modelled from the spec: the external [caseless] helper; [set] assigns
    under the stored spelling of the key when one is present and under
    [name] otherwise. *)
Definition set (dict : IncomingHttpHeaders) (name : string) (v : hval) : IncomingHttpHeaders :=
  match has dict name with
  | Some k => obj_set dict k v
  | None => obj_set dict name v
  end.

(** Modelled from the spec: the external [caseless] helper; [get] reads the
    value stored under the key [has] finds. *)
Definition get (dict : IncomingHttpHeaders) (name : string) : option hval :=
  match has dict name with
  | Some k => obj_get dict k
  | None => None
  end.

End Caseless.

Inductive promise (A : Type) :=
| Pending
| Fulfilled (a : A)
| Rejected (e : value).
Arguments Pending {A}.
Arguments Fulfilled {A} a.
Arguments Rejected {A} e.

(** [resolve(a)] and [reject(e)] on a promise: only a pending promise
    settles. *)
Definition settle_resolve {A} (a : A) (p : promise A) : promise A :=
  match p with Pending => Fulfilled a | _ => p end.

Definition settle_reject {A} (e : value) (p : promise A) : promise A :=
  match p with Pending => Rejected e | _ => p end.

(** ** The three bodies *)

(** The multipart form, seen through what the program asks of it: the
    object its [getHeaders()] returns, and the [(err, length)] pairs with
    which its [getLength] invokes the callback it is given, in order. *)
Record FormData := {
  fd_headers : IncomingHttpHeaders;
  fd_length_calls : list (value * Z)
}.

Inductive NormalizedBody :=
| BufferBody (_body : list byte) (_headers : IncomingHttpHeaders)
| FormBody (_body : FormData)
| StreamBody (_body : value).

Module FormBodyImpl.

(** The variables the [getLength] callback closes over: the guard, the
    [headers] object (shared with the value the promise is resolved with)
    and the promise under construction. *)
Record cb_state := {
  gotLength : bool;
  hdrs : IncomingHttpHeaders;
  settled : promise unit
}.

(** One invocation of the callback given to [getLength]. *)
Definition length_callback (st : cb_state) (call : value * Z) : cb_state :=
  let '(err, len) := call in
  if gotLength st then st
  else
    let st := {| gotLength := true; hdrs := hdrs st; settled := settled st |} in
    if truthy err then
      {| gotLength := gotLength st;
         hdrs := hdrs st;
         settled := settle_reject
                      (if typeof err =? "string"
                       then match err with
                            | VStr msg => VError ErrorK msg
                            | _ => err
                            end
                       else err)
                      (settled st) |}
    else
      {| gotLength := gotLength st;
         hdrs := obj_set (hdrs st) "content-length" (HStr (string_of_Z len));
         settled := settle_resolve tt (settled st) |}.

Definition initial (f : FormData) : cb_state :=
  {| gotLength := false; hdrs := fd_headers f; settled := Pending |}.

Definition run (f : FormData) (calls : list (value * Z)) : cb_state :=
  fold_left length_callback calls (initial f).

(** What a [then] on the returned promise observes: the promise was
    resolved with the [headers] object itself. *)
Definition observe (st : cb_state) : promise IncomingHttpHeaders :=
  match settled st with
  | Pending => Pending
  | Fulfilled _ => Fulfilled (hdrs st)
  | Rejected e => Rejected e
  end.

Definition getHeaders (f : FormData) : promise IncomingHttpHeaders :=
  observe (run f (fd_length_calls f)).

End FormBodyImpl.

Definition getHeaders (b : NormalizedBody) : promise IncomingHttpHeaders :=
  match b with
  | BufferBody body extra =>
      Fulfilled
        (obj_spread [("content-length", HStr (string_of_nat (length body)))] extra)
  | FormBody f => FormBodyImpl.getHeaders f
  | StreamBody _ => Fulfilled []
  end.

(** ** Options and the body selector *)

Record Options := {
  body : value;
  json : option json_value;
  form : option FormData;
  headers : option IncomingHttpHeaders;
  qs : option (obj value);
  allowRedirectHeaders : value;
  followRedirects : value;
  maxRedirects : value;
  gzip : value;
  cache : value;
  agent : value;
  timeout : value;
  socketTimeout : value;
  retry : value;
  retryDelay : value;
  maxRetries : value;
  isMatch : value;
  isExpired : value;
  canCache : value
}.

(** [{}] *)
Definition empty_options : Options :=
  {| body := VUndefined; json := None; form := None; headers := None;
     qs := None; allowRedirectHeaders := VUndefined;
     followRedirects := VUndefined; maxRedirects := VUndefined;
     gzip := VUndefined; cache := VUndefined; agent := VUndefined;
     timeout := VUndefined; socketTimeout := VUndefined;
     retry := VUndefined; retryDelay := VUndefined;
     maxRetries := VUndefined; isMatch := VUndefined;
     isExpired := VUndefined; canCache := VUndefined |}.

Inductive completion (A : Type) :=
| Normal (a : A)
| Throw (e : value).
Arguments Normal {A} a.
Arguments Throw {A} e.

(** [if (options.json)] *)
Definition json_set (j : option json_value) : bool :=
  match j with Some v => json_truthy v | None => false end.

(** The value of the local [body] and of [extraHeaders] once lines 83-94
    have run. *)
Definition resolve_body (options : Options) : value * IncomingHttpHeaders :=
  let extraHeaders : IncomingHttpHeaders := [] in
  let body0 := body options in
  let '(extraHeaders, body1) :=
    match json options with
    | Some j =>
        if json_truthy j
        then (obj_set extraHeaders "content-type" (HStr "application/json"),
              VStr (JSON_stringify j))
        else (extraHeaders, body0)
    | None => (extraHeaders, body0)
    end in
  let body2 :=
    match body1 with
    | VStr s => VBuffer (Buffer_from s)
    | _ => body1
    end in
  let body3 := if negb (truthy body2) then VBuffer [] else body2 in
  (body3, extraHeaders).

Definition handleBody (options : Options) : completion NormalizedBody :=
  match form options with
  | Some f => Normal (FormBody f)
  | None =>
      let '(b, extraHeaders) := resolve_body options in
      match b with
      | VBuffer bytes => Normal (BufferBody bytes extraHeaders)
      | _ =>
          if has_pipe b then Normal (StreamBody b)
          else Throw (VError TypeErrorK "body should be a Buffer or a String")
      end
  end.

(** ** The transport *)

(** The configuration bag handed to the transport by [ready]. *)
Record TransportOptions := {
  t_allowRedirectHeaders : value;
  t_headers : option IncomingHttpHeaders;
  t_followRedirects : bool;
  t_maxRedirects : value;
  t_gzip : bool;
  t_cache : value;
  t_agent : value;
  t_timeout : value;
  t_socketTimeout : value;
  t_retry : value;
  t_retryDelay : value;
  t_maxRetries : value;
  t_isMatch : value;
  t_isExpired : value;
  t_canCache : value
}.

(** The streamed body of a transport response: the chunks it emits, and the
    error it emits instead of ending, if any. *)
Record ResponseStream := {
  rs_chunks : list (list byte);
  rs_error : option value
}.

Record IncomingResponse := {
  in_statusCode : Z;
  in_headers : IncomingHttpHeaders;
  in_body : ResponseStream;
  in_url : string
}.

(** [GenericResponse<Buffer>] *)
Record Response := {
  statusCode : Z;
  res_headers : IncomingHttpHeaders;
  res_body : list byte;
  res_url : string
}.

(** The transport [basicRequest], seen through what the program asks of
    it: the request sink it returns ([None] for a null one) and the
    [(err, res)] pairs with which it later invokes the completion
    callback. *)
Record Transport := {
  tr_returns : string -> string -> TransportOptions -> option nat;
  tr_calls_back :
    string -> string -> TransportOptions ->
    list (value * option IncomingResponse)
}.

(** ** The dispatch *)

(** The calls [request] makes to its collaborators, in the order made. *)
Inductive event :=
| EvGetHeaders (b : NormalizedBody)
| EvThen (b : NormalizedBody) (bodyHeaders : IncomingHttpHeaders)
| EvBasicRequest (method url : string) (cfg : TransportOptions)
| EvPipe (b : NormalizedBody) (sink : nat).

(** What the executor of [request] can change: the options object (the
    caller's, when one was passed), the promise it settles, and the trace of
    calls made so far. *)
Record state := {
  st_options : Options;
  st_promise : promise Response;
  st_trace : list event
}.

Definition M (A : Type) : Type := state -> completion A * state.

Definition ret {A} (a : A) : M A := fun st => (Normal a, st).

Definition bind {A B} (c : M A) (k : A -> M B) : M B :=
  fun st =>
    match c st with
    | (Normal a, st') => k a st'
    | (Throw e, st') => (Throw e, st')
    end.

Definition throw {A} (e : value) : M A := fun st => (Throw e, st).

(** [try { c } catch (e) { h(e) }] *)
Definition catch {A} (c : M A) (h : value -> M A) : M A :=
  fun st =>
    match c st with
    | (Throw e, st') => h e st'
    | r => r
    end.

Declare Scope js_scope.
Delimit Scope js_scope with js.
Notation "x <- c ;; k" := (bind c (fun x => k))
  (at level 61, c at next level, right associativity) : js_scope.
Notation "c ;; k" := (bind c (fun _ => k))
  (at level 61, right associativity) : js_scope.
Local Open Scope js_scope.

Definition lift {A} (c : completion A) : M A :=
  match c with
  | Normal a => ret a
  | Throw e => throw e
  end.

Definition get_options : M Options := fun st => (Normal (st_options st), st).

Definition emit (ev : event) : M unit :=
  fun st =>
    (Normal tt,
     {| st_options := st_options st;
        st_promise := st_promise st;
        st_trace := st_trace st ++ [ev] |}).

Definition resolve (r : Response) : M unit :=
  fun st =>
    (Normal tt,
     {| st_options := st_options st;
        st_promise := settle_resolve r (st_promise st);
        st_trace := st_trace st |}).

Definition reject (e : value) : M unit :=
  fun st =>
    (Normal tt,
     {| st_options := st_options st;
        st_promise := settle_reject e (st_promise st);
        st_trace := st_trace st |}).

(** Assignment to [options.headers], and to the object it points to. *)
Definition set_headers (h : option IncomingHttpHeaders) (o : Options) : Options :=
  {| body := body o; json := json o; form := form o; headers := h;
     qs := qs o; allowRedirectHeaders := allowRedirectHeaders o;
     followRedirects := followRedirects o; maxRedirects := maxRedirects o;
     gzip := gzip o; cache := cache o; agent := agent o;
     timeout := timeout o; socketTimeout := socketTimeout o;
     retry := retry o; retryDelay := retryDelay o;
     maxRetries := maxRetries o; isMatch := isMatch o;
     isExpired := isExpired o; canCache := canCache o |}.

Definition modify_options (f : Options -> Options) : M unit :=
  fun st =>
    (Normal tt,
     {| st_options := f (st_options st);
        st_promise := st_promise st;
        st_trace := st_trace st |}).

(** [p.then(cb).catch(onRejected)] *)
Definition then_catch {A} (p : promise A) (cb : A -> M unit)
    (onRejected : value -> M unit) : M unit :=
  match p with
  | Pending => ret tt
  | Fulfilled a => catch (cb a) onRejected
  | Rejected e => onRejected e
  end.

(** [v !== false] *)
Definition not_false (v : value) : bool :=
  match v with VBool false => false | _ => true end.

(** The loop of lines 134-138 over the object the [caseless] wrapper
    holds. *)
Definition merge_headers (H B : IncomingHttpHeaders) : IncomingHttpHeaders :=
  fold_left
    (fun hs key =>
       match Caseless.has hs key with
       | Some _ => hs
       | None =>
           match obj_get B key with
           | Some v => Caseless.set hs key v
           | None => hs
           end
       end)
    (obj_keys B) H.

(** The object literal of lines 149-165. *)
Definition transport_options (options : Options) : TransportOptions :=
  {| t_allowRedirectHeaders := allowRedirectHeaders options;
     t_headers := headers options;
     t_followRedirects := not_false (followRedirects options);
     t_maxRedirects := maxRedirects options;
     t_gzip := not_false (gzip options);
     t_cache := cache options;
     t_agent := agent options;
     t_timeout := timeout options;
     t_socketTimeout := socketTimeout options;
     t_retry := retry options;
     t_retryDelay := retryDelay options;
     t_maxRetries := maxRetries options;
     t_isMatch := isMatch options;
     t_isExpired := isExpired options;
     t_canCache := canCache options |}.

(** [!(method === 'GET' || method === 'DELETE' || method === 'HEAD')] *)
Definition duplex (method : string) : bool :=
  negb ((method =? "GET") || (method =? "DELETE") || (method =? "HEAD")).

(** What [concat-stream] hands to its callback: an empty array when nothing
    was written, the concatenated buffer otherwise. *)
Definition concat (chunks : list (list byte)) : option (list byte) :=
  match chunks with
  | [] => None
  | _ => Some (List.concat chunks)
  end.

(** The type the argument [options] can have at run time: an options
    object, or any other value. *)
Inductive optarg :=
| OptObject (o : Options)
| OptValue (v : value).

(** The object [options] denotes after lines 104-119; an object that is not
    an options record has none of the option properties. *)
Definition options_object (a : optarg) : Options :=
  match a with
  | OptObject o => o
  | OptValue _ => empty_options
  end.

Section Dispatch.

(** Modelled from the spec: [./handle-qs], "pure function
    [(url, queryParams) -> url'] that appends/merges query parameters". *)
Variable handleQs : string -> obj value -> string.

(** The module-level binding [basicRequest]. *)
Variable basicRequest : Transport.

(** The completion callback given to the transport (lines 166-180). *)
Definition on_complete (call : value * option IncomingResponse) : M unit :=
  let '(err, res) := call in
  if truthy err then reject err
  else
    match res with
    | None => reject (VError ErrorK "No request was received")
    | Some res =>
        match rs_error (in_body res) with
        | Some e => reject e
        | None =>
            resolve
              {| statusCode := in_statusCode res;
                 res_headers := in_headers res;
                 res_body :=
                   match concat (rs_chunks (in_body res)) with
                   | None => []
                   | Some b => b
                   end;
                 res_url := in_url res |}
        end
    end.

Fixpoint each {A} (f : A -> M unit) (l : list A) : M unit :=
  match l with
  | [] => ret tt
  | x :: r => f x ;; each f r
  end.

Definition ready (method url : string) (b : option NormalizedBody) : M unit :=
  options <- get_options ;;
  let cfg := transport_options options in
  emit (EvBasicRequest method url cfg) ;;
  let req := tr_returns basicRequest method url cfg in
  match req, b with
  | Some sink, Some b => emit (EvPipe b sink)
  | _, _ => ret tt
  end ;;
  each on_complete (tr_calls_back basicRequest method url cfg).

(** The function given to [new Promise] (lines 105-186). *)
Definition executor (method url : value) (options : optarg) : M unit :=
  method <- match method with
            | VStr s => ret s
            | _ => throw (VError TypeErrorK "The method must be a string.")
            end ;;
  url <- match url with
         | VStr s => ret s
         | _ => throw (VError TypeErrorK "The URL/path must be a string.")
         end ;;
  match options with
  | OptObject _ => ret tt
  | OptValue v =>
      match v with
      | VUndefined | VNull => ret tt
      | _ =>
          if negb (typeof v =? "object")
          then throw (VError TypeErrorK "Options must be an object (or null).")
          else ret tt
      end
  end ;;
  let method := toUpperCase method in
  modify_options
    (fun o => set_headers
                (Some match headers o with Some h => h | None => [] end) o) ;;
  options <- get_options ;;
  let url := match qs options with
             | Some q => handleQs url q
             | None => url
             end in
  if duplex method then
    b <- lift (handleBody options) ;;
    emit (EvGetHeaders b) ;;
    then_catch (getHeaders b)
      (fun bodyHeaders =>
         emit (EvThen b bodyHeaders) ;;
         modify_options
           (fun o => set_headers
                       (option_map (fun h => merge_headers h bodyHeaders)
                                   (headers o)) o) ;;
         ready method url (Some b))
      reject
  else if truthy (body options) then
    throw (VError ErrorK ("You cannot pass a body to a " ++ method ++ " request."))
  else
    ready method url None.

(** [new Promise(executor)]: an exception of the executor rejects. *)
Definition new_Promise (ex : M unit) (st : state) : state :=
  match ex st with
  | (Normal _, st') => st'
  | (Throw e, st') => snd (reject e st')
  end.

(** [request(method, url, options)]: the promise returned, together with
    the options object and the calls made once every callback has run. *)
Definition request (method url : value) (options : optarg) : completion state :=
  Normal
    (new_Promise (executor method url options)
       {| st_options := options_object options;
          st_promise := Pending;
          st_trace := [] |}).

End Dispatch.

(** ** Vocabulary of the statements *)

(** An entry the merge added: its key was absent from the caller's
    headers, case-insensitively, and its value is the body's. *)
Definition added (H B : IncomingHttpHeaders) (kv : string * hval) : Prop :=
  Caseless.has H (fst kv) = None /\ obj_get B (fst kv) = Some (snd kv).

(** The arguments pass the type checks of lines 108-119. *)
Definition valid_options (a : optarg) : bool :=
  match a with
  | OptObject _ => true
  | OptValue VUndefined | OptValue VNull => true
  | OptValue v => typeof v =? "object"
  end.

(** [options.headers || {}] *)
Definition headers_or_empty (o : Options) : IncomingHttpHeaders :=
  match headers o with Some h => h | None => [] end.

(** The options object after line 122. *)
Definition with_headers (o : Options) : Options :=
  set_headers (Some (headers_or_empty o)) o.

Definition start (a : optarg) : state :=
  {| st_options := options_object a; st_promise := Pending; st_trace := [] |}.

(** The options object once the body's headers are merged in. *)
Definition merged_options (o : Options) (B : IncomingHttpHeaders) : Options :=
  set_headers (Some (merge_headers (headers_or_empty o) B)) o.

(** [if (req && body) body.pipe(req)] *)
Definition pipe_events (b : NormalizedBody) (req : option nat) : list event :=
  match req with Some sink => [EvPipe b sink] | None => [] end.

(** The invocations of the transport found in a trace. *)
Fixpoint transport_calls (tr : list event)
  : list (string * string * TransportOptions) :=
  match tr with
  | [] => []
  | EvBasicRequest method url cfg :: r => (method, url, cfg) :: transport_calls r
  | _ :: r => transport_calls r
  end.

(** The options object with [json] left out. *)
Definition without_json (o : Options) : Options :=
  {| body := body o; json := None; form := form o; headers := headers o;
     qs := qs o; allowRedirectHeaders := allowRedirectHeaders o;
     followRedirects := followRedirects o; maxRedirects := maxRedirects o;
     gzip := gzip o; cache := cache o; agent := agent o;
     timeout := timeout o; socketTimeout := socketTimeout o;
     retry := retry o; retryDelay := retryDelay o;
     maxRetries := maxRetries o; isMatch := isMatch o;
     isExpired := isExpired o; canCache := canCache o |}.

(** The usage errors of the entry point, each with the error it is
    reported by: the three argument checks in the order the code makes
    them, and a resolved body that is neither a buffer nor a stream. *)
Inductive usage_error : value -> value -> optarg -> value -> Prop :=
| bad_method method url a :
    typeof method <> "string" ->
    usage_error method url a
      (VError TypeErrorK "The method must be a string.")
| bad_url m url a :
    typeof url <> "string" ->
    usage_error (VStr m) url a
      (VError TypeErrorK "The URL/path must be a string.")
| bad_options m u v :
    v <> VUndefined -> v <> VNull -> typeof v <> "object" ->
    usage_error (VStr m) (VStr u) (OptValue v)
      (VError TypeErrorK "Options must be an object (or null).")
| bad_body m u a :
    valid_options a = true ->
    duplex (toUpperCase m) = true ->
    form (options_object a) = None ->
    isBuffer (fst (resolve_body (options_object a))) = false ->
    has_pipe (fst (resolve_body (options_object a))) = false ->
    usage_error (VStr m) (VStr u) a
      (VError TypeErrorK "body should be a Buffer or a String").

Section DispatchTail.
Variable handleQs : string -> obj value -> string.
Variable basicRequest : Transport.

(** The target after line 127. *)
Definition target (url : string) (o : Options) : string :=
  match qs o with Some q => handleQs url q | None => url end.

(** The executor from line 121 on, once the arguments passed the
    checks. *)
Definition dispatch (method url : string) : M unit :=
  (modify_options with_headers ;;
   options <- get_options ;;
   let url := target url options in
   if duplex method then
     b <- lift (handleBody options) ;;
     emit (EvGetHeaders b) ;;
     then_catch (getHeaders b)
       (fun bodyHeaders =>
          emit (EvThen b bodyHeaders) ;;
          modify_options
            (fun o => set_headers
                        (option_map (fun h => merge_headers h bodyHeaders)
                                    (headers o)) o) ;;
          ready basicRequest method url (Some b))
       reject
   else if truthy (body options) then
     throw (VError ErrorK
              ("You cannot pass a body to a " ++ method ++ " request.")%string)
   else
     ready basicRequest method url None)%js.

End DispatchTail.

(** ** Sample collaborators, for the concrete runs below *)

Module Samples.

Definition options_with (b : value) (j : option json_value)
    (f : option FormData) (h : option IncomingHttpHeaders) : Options :=
  {| body := b; json := j; form := f; headers := h;
     qs := None; allowRedirectHeaders := VUndefined;
     followRedirects := VUndefined; maxRedirects := VUndefined;
     gzip := VUndefined; cache := VUndefined; agent := VUndefined;
     timeout := VUndefined; socketTimeout := VUndefined;
     retry := VUndefined; retryDelay := VUndefined;
     maxRetries := VUndefined; isMatch := VUndefined;
     isExpired := VUndefined; canCache := VUndefined |}.

(** A query-string handler that is never reached: no sample sets [qs]. *)
Definition keep_url (url : string) (_ : obj value) : string := url.

(** A transport that hands back sink 1 and answers 204 with no body. *)
Definition answering : Transport :=
  {| tr_returns := fun _ _ _ => Some 1%nat;
     tr_calls_back := fun _ url _ =>
       [(VNull,
         Some {| in_statusCode := 204; in_headers := [];
                 in_body := {| rs_chunks := []; rs_error := None |};
                 in_url := url |})] |}.

(** [{a: 1}] *)
Definition a1 : json_value := JObj [("a", JNum 1)].

(** The bytes of [{"a":1}]. *)
Definition a1_bytes : list byte := [x7b; x22; x61; x22; x3a; x31; x7d].

(** A form that reports ["Unknown stream"] and then, wrongly, a length. *)
Definition failing_form : FormData :=
  {| fd_headers := [("content-type", HStr "multipart/form-data; boundary=x")];
     fd_length_calls := [(VStr "Unknown stream", 0%Z); (VNull, 10%Z)] |}.

End Samples.

(** ** Vocabulary of the further properties *)

(** The promise after one more invocation of the completion callback
    (lines 166-180). *)
Definition completion_step (p : promise Response)
    (call : value * option IncomingResponse) : promise Response :=
  st_promise
    (snd (on_complete call
            {| st_options := empty_options; st_promise := p; st_trace := [] |})).

(** The promise after all the invocations the transport makes. *)
Definition completions (calls : list (value * option IncomingResponse))
  : promise Response :=
  fold_left completion_step calls Pending.

(** The [pipe] calls found in a trace. *)
Fixpoint pipes (tr : list event) : list (NormalizedBody * nat) :=
  match tr with
  | [] => []
  | EvPipe b sink :: r => (b, sink) :: pipes r
  | _ :: r => pipes r
  end.

(** The [getHeaders] calls found in a trace. *)
Fixpoint header_requests (tr : list event) : list NormalizedBody :=
  match tr with
  | [] => []
  | EvGetHeaders b :: r => b :: header_requests r
  | _ :: r => header_requests r
  end.


Module MoreSamples.

(** A transport that returns [sink] and invokes the callback with [calls]. *)
Definition transport_with (sink : option nat)
    (calls : list (value * option IncomingResponse)) : Transport :=
  {| tr_returns := fun _ _ _ => sink;
     tr_calls_back := fun _ _ _ => calls |}.

(** A response of status 200 whose body arrives as [he] and [llo]. *)
Definition hello : IncomingResponse :=
  {| in_statusCode := 200;
     in_headers := [("content-type", HStr "text/plain")];
     in_body := {| rs_chunks := [[x68; x65]; [x6c; x6c; x6f]]; rs_error := None |};
     in_url := "http://x/final" |}.


(** A query-string handler that marks the URL it was given. *)
Definition mark_qs (url : string) (_ : obj value) : string :=
  (url ++ "?q")%string.

(** A form that reports a length of 42 and then calls again. *)
Definition sized_form : FormData :=
  {| fd_headers := [("content-type", HStr "multipart/form-data; boundary=x")];
     fd_length_calls := [(VNull, 42%Z); (VStr "late", 0%Z)] |}.

(** A form that never reports its length. *)
Definition silent_form : FormData :=
  {| fd_headers := [("content-type", HStr "multipart/form-data; boundary=x")];
     fd_length_calls := [] |}.

(** [{qs: {a: '1 2'}}] *)
Definition with_query : Options :=
  {| body := VUndefined; json := None; form := None; headers := None;
     qs := Some [("a", VStr "1 2")]; allowRedirectHeaders := VUndefined;
     followRedirects := VUndefined; maxRedirects := VUndefined;
     gzip := VUndefined; cache := VUndefined; agent := VUndefined;
     timeout := VUndefined; socketTimeout := VUndefined;
     retry := VUndefined; retryDelay := VUndefined;
     maxRetries := VUndefined; isMatch := VUndefined;
     isExpired := VUndefined; canCache := VUndefined |}.

(** The state a call of [request] returned. *)
Definition the_state (c : completion state) : state :=
  match c with
  | Normal st => st
  | Throw _ => start (OptValue VUndefined)
  end.

End MoreSamples.

(** * Properties *)

Local Open Scope list_scope.

(** ** Objects and the case-insensitive wrapper *)

Section ObjFacts.
Context {V : Type}.
Implicit Types (o a b : obj V) (k : string).

Lemma obj_get_app a b k :
  obj_get (a ++ b) k =
  match obj_get a k with Some v => Some v | None => obj_get b k end.
Proof.
  induction a as [|[k' v'] a IH]; simpl; [reflexivity|].
  destruct (k' =? k); auto.
Qed.

Lemma obj_set_absent o k (v : V) :
  obj_get o k = None -> obj_set o k v = o ++ [(k, v)].
Proof.
  induction o as [|[k' v'] o IH]; simpl; [reflexivity|].
  destruct (k' =? k); [discriminate|].
  intros H. now rewrite IH.
Qed.

Lemma obj_get_In o k (v : V) : obj_get o k = Some v -> In (k, v) o.
Proof.
  induction o as [|[k' v'] o IH]; simpl; [discriminate|].
  destruct (k' =? k) eqn:E.
  - apply String.eqb_eq in E. intros [= ->]. left. now subst.
  - intros H. right. auto.
Qed.

Lemma obj_get_keys o k : In k (obj_keys o) -> exists v, obj_get o k = Some v.
Proof.
  induction o as [|[k' v'] o IH]; simpl; [tauto|].
  intros [->|H].
  - rewrite String.eqb_refl. eauto.
  - destruct (k' =? k); eauto.
Qed.
End ObjFacts.

Module CaselessFacts.
Import Caseless.

Lemma has_app d e name :
  has (d ++ e) name =
  match has d name with Some k => Some k | None => has e name end.
Proof.
  induction d as [|[k v] d IH]; simpl; [reflexivity|].
  destruct (toLowerCase k =? toLowerCase name); auto.
Qed.

(** A key absent under the case-insensitive test is absent as spelled. *)
Lemma has_None_get d name : has d name = None -> obj_get d name = None.
Proof.
  induction d as [|[k v] d IH]; simpl; [reflexivity|].
  destruct (toLowerCase k =? toLowerCase name) eqn:E; [discriminate|].
  destruct (k =? name) eqn:E'; [|assumption].
  apply String.eqb_eq in E'. subst k.
  now rewrite String.eqb_refl in E.
Qed.

(** The key [has] answers with is a key of the object, and matches. *)
Lemma has_Some_get d name k :
  has d name = Some k ->
  toLowerCase k = toLowerCase name /\ exists v, obj_get d k = Some v.
Proof.
  induction d as [|[k' v] d IH]; simpl; [discriminate|].
  destruct (toLowerCase k' =? toLowerCase name) eqn:E.
  - intros [= <-]. apply String.eqb_eq in E. split; [assumption|].
    rewrite String.eqb_refl. eauto.
  - intros H. destruct (IH H) as [Hl [w Hw]]. split; [assumption|].
    destruct (k' =? k); eauto.
Qed.

Lemma set_absent d name v :
  has d name = None -> set d name v = d ++ [(name, v)].
Proof.
  intros H. unfold set. rewrite H.
  apply obj_set_absent. now apply has_None_get.
Qed.

(** Reading through the wrapper is stable when entries are appended after
    a key that is already there. *)
Lemma get_app_present d e name :
  has d name <> None -> get (d ++ e) name = get d name.
Proof.
  intros H. unfold get. rewrite has_app.
  destruct (has d name) as [k|] eqn:Hk; [|congruence].
  destruct (has_Some_get _ _ _ Hk) as [_ [v Hv]].
  now rewrite obj_get_app, Hv.
Qed.
End CaselessFacts.

(** ** The header merge *)

Section MergeFacts.
Import Caseless CaselessFacts.

Lemma merge_step_app H B keys : forall E,
  Forall (added H B) E ->
  exists E',
    fold_left
      (fun hs key =>
         match has hs key with
         | Some _ => hs
         | None =>
             match obj_get B key with
             | Some v => set hs key v
             | None => hs
             end
         end) keys (H ++ E) = H ++ E'
    /\ Forall (added H B) E'.
Proof.
  induction keys as [|key keys IH]; intros E HE; simpl.
  - eauto.
  - destruct (has (H ++ E) key) as [k|] eqn:Hk; [now apply IH|].
    destruct (obj_get B key) as [v|] eqn:Hv; [|now apply IH].
    rewrite set_absent by assumption.
    rewrite <- app_assoc. apply IH.
    apply Forall_app. split; [assumption|].
    constructor; [|constructor].
    rewrite has_app in Hk. split; simpl; [|assumption].
    destruct (has H key); [discriminate|reflexivity].
Qed.

(** The merge only appends to the caller's headers. *)
Lemma merge_headers_app H B :
  exists E, merge_headers H B = H ++ E /\ Forall (added H B) E.
Proof.
  unfold merge_headers.
  destruct (merge_step_app H B (obj_keys B) [] (Forall_nil _)) as [E [HE HF]].
  rewrite app_nil_r in HE. eauto.
Qed.

Lemma merge_keeps_entry H B k v :
  obj_get H k = Some v -> obj_get (merge_headers H B) k = Some v.
Proof.
  intros Hk. destruct (merge_headers_app H B) as [E [-> _]].
  now rewrite obj_get_app, Hk.
Qed.

Lemma merge_caller_wins H B k :
  has H k <> None -> get (merge_headers H B) k = get H k.
Proof.
  intros Hk. destruct (merge_headers_app H B) as [E [-> _]].
  now apply get_app_present.
Qed.

Lemma merge_only_adds_absent H B k v :
  obj_get (merge_headers H B) k = Some v ->
  obj_get H k = Some v \/ (has H k = None /\ obj_get B k = Some v).
Proof.
  destruct (merge_headers_app H B) as [E [-> HF]].
  rewrite obj_get_app.
  destruct (obj_get H k) as [w|] eqn:Hw; [now left|].
  intros HE. right. apply obj_get_In in HE.
  rewrite Forall_forall in HF. exact (HF _ HE).
Qed.

Lemma merge_empty H : merge_headers H [] = H.
Proof. reflexivity. Qed.
End MergeFacts.

(** ** The paths through [request] *)

Section RequestFacts.
Variable handleQs : string -> obj value -> string.
Variable basicRequest : Transport.

Lemma handleBody_set_headers h o : handleBody (set_headers h o) = handleBody o.
Proof. reflexivity. Qed.

Lemma on_complete_settles call st :
  exists p,
    on_complete call st =
    (Normal tt,
     {| st_options := st_options st; st_promise := p; st_trace := st_trace st |}).
Proof.
  destruct call as [err res]. unfold on_complete.
  destruct (truthy err);
    [|destruct res as [res|]; [destruct (rs_error (in_body res))|]];
    eexists; reflexivity.
Qed.

(** The completion callbacks settle the promise and do nothing else. *)
Lemma each_on_complete calls : forall st,
  exists p,
    each on_complete calls st =
    (Normal tt,
     {| st_options := st_options st; st_promise := p; st_trace := st_trace st |}).
Proof.
  induction calls as [|call calls IH]; intros st; simpl.
  - exists (st_promise st). now destruct st.
  - unfold bind.
    destruct (on_complete_settles call st) as [p ->].
    destruct (IH {| st_options := st_options st; st_promise := p;
                    st_trace := st_trace st |}) as [q ->].
    exists q. reflexivity.
Qed.

Lemma executor_valid m u a st :
  valid_options a = true ->
  executor handleQs basicRequest (VStr m) (VStr u) a st =
  dispatch handleQs basicRequest (toUpperCase m) u st.
Proof.
  intros Hv. unfold executor, dispatch.
  destruct a as [o|[]]; try discriminate; reflexivity.
Qed.

Lemma request_valid m u a :
  valid_options a = true ->
  request handleQs basicRequest (VStr m) (VStr u) a =
  Normal (new_Promise (dispatch handleQs basicRequest (toUpperCase m) u) (start a)).
Proof.
  intros Hv. unfold request, new_Promise.
  now rewrite executor_valid.
Qed.

Section Paths.
Variables (m u : string) (a : optarg).
Hypothesis Hvalid : valid_options a = true.

Let o := options_object a.
Let method := toUpperCase m.
Let url := target handleQs u o.

Lemma request_bodyless_body :
  duplex method = false ->
  truthy (body o) = true ->
  request handleQs basicRequest (VStr m) (VStr u) a =
  Normal
    {| st_options := with_headers o;
       st_promise :=
         Rejected
           (VError ErrorK
              ("You cannot pass a body to a " ++ method ++ " request.")%string);
       st_trace := [] |}.
Proof.
  intros Hd Hb. rewrite request_valid by assumption.
  unfold new_Promise, dispatch, bind. simpl.
  fold method. rewrite Hd. fold o. rewrite Hb. reflexivity.
Qed.

Lemma request_bodyless_ready :
  duplex method = false ->
  truthy (body o) = false ->
  exists p,
    request handleQs basicRequest (VStr m) (VStr u) a =
    Normal
      {| st_options := with_headers o;
         st_promise := p;
         st_trace :=
           [EvBasicRequest method url (transport_options (with_headers o))] |}.
Proof.
  intros Hd Hb. rewrite request_valid by assumption.
  unfold new_Promise, dispatch, bind. simpl.
  fold method. rewrite Hd. fold o. rewrite Hb.
  unfold ready, bind. simpl.
  change (target handleQs u (with_headers o)) with url.
  destruct (tr_returns basicRequest _ _ _); simpl;
    match goal with
    | |- context [each on_complete ?c ?s] =>
        destruct (each_on_complete c s) as [p ->]
    end; exists p; reflexivity.
Qed.

Lemma request_body_throws e :
  duplex method = true ->
  handleBody o = Throw e ->
  request handleQs basicRequest (VStr m) (VStr u) a =
  Normal
    {| st_options := with_headers o;
       st_promise := Rejected e;
       st_trace := [] |}.
Proof.
  intros Hd Hb. rewrite request_valid by assumption.
  unfold new_Promise, dispatch, bind. simpl.
  fold method. rewrite Hd. fold o.
  change (handleBody (with_headers o)) with (handleBody o). rewrite Hb. reflexivity.
Qed.

Lemma request_headers_pending b :
  duplex method = true ->
  handleBody o = Normal b ->
  getHeaders b = Pending ->
  request handleQs basicRequest (VStr m) (VStr u) a =
  Normal
    {| st_options := with_headers o;
       st_promise := Pending;
       st_trace := [EvGetHeaders b] |}.
Proof.
  intros Hd Hb Hh. rewrite request_valid by assumption.
  unfold new_Promise, dispatch, bind. simpl.
  fold method. rewrite Hd. fold o.
  change (handleBody (with_headers o)) with (handleBody o). rewrite Hb. simpl. rewrite Hh. reflexivity.
Qed.

Lemma request_headers_rejected b e :
  duplex method = true ->
  handleBody o = Normal b ->
  getHeaders b = Rejected e ->
  request handleQs basicRequest (VStr m) (VStr u) a =
  Normal
    {| st_options := with_headers o;
       st_promise := Rejected e;
       st_trace := [EvGetHeaders b] |}.
Proof.
  intros Hd Hb Hh. rewrite request_valid by assumption.
  unfold new_Promise, dispatch, bind. simpl.
  fold method. rewrite Hd. fold o.
  change (handleBody (with_headers o)) with (handleBody o). rewrite Hb. simpl. rewrite Hh. reflexivity.
Qed.

Lemma request_headers_fulfilled b B :
  duplex method = true ->
  handleBody o = Normal b ->
  getHeaders b = Fulfilled B ->
  exists p,
    request handleQs basicRequest (VStr m) (VStr u) a =
    Normal
      {| st_options := merged_options o B;
         st_promise := p;
         st_trace :=
           [EvGetHeaders b; EvThen b B;
            EvBasicRequest method url (transport_options (merged_options o B))]
           ++ pipe_events b
                (tr_returns basicRequest method url
                   (transport_options (merged_options o B))) |}.
Proof.
  intros Hd Hb Hh. rewrite request_valid by assumption.
  unfold new_Promise, dispatch, bind. simpl.
  fold method. rewrite Hd. fold o.
  change (handleBody (with_headers o)) with (handleBody o). rewrite Hb. simpl. rewrite Hh.
  unfold then_catch, catch, ready, bind. simpl.
  change (target handleQs u (with_headers o)) with url.
  change (set_headers _ (with_headers o)) with (merged_options o B).
  destruct (tr_returns basicRequest _ _ _); simpl;
    match goal with
    | |- context [each on_complete ?c ?s] =>
        destruct (each_on_complete c s) as [p ->]
    end; exists p; reflexivity.
Qed.
End Paths.

End RequestFacts.

(** The arguments that fail a type check. *)
Section BadArguments.
Variable handleQs : string -> obj value -> string.
Variable basicRequest : Transport.

Lemma typeof_string v : typeof v = "string" <-> exists s, v = VStr s.
Proof.
  split.
  - destruct v; simpl; try discriminate. eauto.
  - intros [s ->]. reflexivity.
Qed.

Lemma request_bad_method method url a :
  typeof method <> "string" ->
  request handleQs basicRequest method url a =
  Normal
    {| st_options := options_object a;
       st_promise := Rejected (VError TypeErrorK "The method must be a string.");
       st_trace := [] |}.
Proof.
  intros H. destruct method; try reflexivity.
  exfalso. apply H. reflexivity.
Qed.

Lemma request_bad_url m url a :
  typeof url <> "string" ->
  request handleQs basicRequest (VStr m) url a =
  Normal
    {| st_options := options_object a;
       st_promise := Rejected (VError TypeErrorK "The URL/path must be a string.");
       st_trace := [] |}.
Proof.
  intros H. destruct url; try reflexivity.
  exfalso. apply H. reflexivity.
Qed.

Lemma request_bad_options m u a :
  valid_options a = false ->
  request handleQs basicRequest (VStr m) (VStr u) a =
  Normal
    {| st_options := options_object a;
       st_promise :=
         Rejected (VError TypeErrorK "Options must be an object (or null).");
       st_trace := [] |}.
Proof.
  destruct a as [o|[]]; simpl; intros H; try discriminate; reflexivity.
Qed.
End BadArguments.

Lemma duplex_false method :
  duplex method = false <-> In method ["GET"; "DELETE"; "HEAD"]%string.
Proof.
  unfold duplex. rewrite negb_false_iff, !orb_true_iff, !String.eqb_eq.
  simpl. intuition congruence.
Qed.

Lemma set_headers_same o : set_headers (headers o) o = o.
Proof. now destruct o. Qed.

(** ** One transport call on the duplex path *)

Section RequestSummary.
Variable handleQs : string -> obj value -> string.
Variable basicRequest : Transport.

Lemma transport_calls_fulfilled b B method url cfg req :
  transport_calls
    ([EvGetHeaders b; EvThen b B; EvBasicRequest method url cfg]
     ++ pipe_events b req) = [(method, url, cfg)].
Proof. destruct req; reflexivity. Qed.

Lemma request_transport_call m u a b B :
  valid_options a = true ->
  duplex (toUpperCase m) = true ->
  handleBody (options_object a) = Normal b ->
  getHeaders b = Fulfilled B ->
  exists st,
    request handleQs basicRequest (VStr m) (VStr u) a = Normal st
    /\ st_options st = merged_options (options_object a) B
    /\ transport_calls (st_trace st) =
       [(toUpperCase m, target handleQs u (options_object a),
         transport_options (merged_options (options_object a) B))].
Proof.
  intros Hv Hd Hb Hh.
  destruct (request_headers_fulfilled handleQs basicRequest m u a Hv b B Hd Hb Hh)
    as [p ->].
  eexists. split; [reflexivity|]. split; [reflexivity|].
  apply transport_calls_fulfilled.
Qed.

(** Whatever the arguments, the options object ends in one of three
    states. *)
Lemma request_options_after method url a :
  exists st,
    request handleQs basicRequest method url a = Normal st
    /\ (st_options st = options_object a
        \/ st_options st = with_headers (options_object a)
        \/ exists B, st_options st = merged_options (options_object a) B).
Proof.
  destruct (typeof method =? "string") eqn:Hm.
  2:{ eexists. split; [apply request_bad_method|left; reflexivity].
      intros E. rewrite E in Hm. discriminate. }
  apply String.eqb_eq, typeof_string in Hm. destruct Hm as [m ->].
  destruct (typeof url =? "string") eqn:Hu.
  2:{ eexists. split; [apply request_bad_url|left; reflexivity].
      intros E. rewrite E in Hu. discriminate. }
  apply String.eqb_eq, typeof_string in Hu. destruct Hu as [u ->].
  destruct (valid_options a) eqn:Hv.
  2:{ eexists. split; [now apply request_bad_options|left; reflexivity]. }
  destruct (duplex (toUpperCase m)) eqn:Hd.
  - destruct (handleBody (options_object a)) as [b|e] eqn:Hb.
    + destruct (getHeaders b) as [|B|e] eqn:Hh.
      * eexists. split;
          [exact (request_headers_pending handleQs basicRequest m u a Hv b Hd Hb Hh)|right; left; reflexivity].
      * destruct (request_headers_fulfilled handleQs basicRequest m u a Hv b B Hd Hb Hh)
          as [p ->].
        eexists. split; [reflexivity|]. right. right. exists B. reflexivity.
      * eexists. split;
          [exact (request_headers_rejected handleQs basicRequest m u a Hv b e Hd Hb Hh)|right; left; reflexivity].
    + eexists. split; [exact (request_body_throws handleQs basicRequest m u a Hv e Hd Hb)|right; left; reflexivity].
  - destruct (truthy (body (options_object a))) eqn:Hb.
    + eexists. split; [exact (request_bodyless_body handleQs basicRequest m u a Hv Hd Hb)|right; left; reflexivity].
    + destruct (request_bodyless_ready handleQs basicRequest m u a Hv Hd Hb)
        as [p ->].
      eexists. split; [reflexivity|]. right. left. reflexivity.
Qed.
End RequestSummary.

(** ** The form's length callback *)

Lemma length_callback_guard calls : forall st,
  FormBodyImpl.gotLength st = true ->
  fold_left FormBodyImpl.length_callback calls st = st.
Proof.
  induction calls as [|[err len] calls IH]; intros st Hg; simpl; [reflexivity|].
  rewrite Hg. now apply IH.
Qed.

Lemma length_callback_sets_guard st call :
  FormBodyImpl.gotLength (FormBodyImpl.length_callback st call) = true.
Proof.
  destruct call as [err len]. unfold FormBodyImpl.length_callback.
  destruct (FormBodyImpl.gotLength st) eqn:Hg; [assumption|].
  destruct (truthy err); reflexivity.
Qed.

(** Only the first invocation of the callback has an effect. *)
Lemma run_first_wins f first calls :
  FormBodyImpl.run f (first :: calls) = FormBodyImpl.run f [first].
Proof.
  unfold FormBodyImpl.run. simpl.
  apply length_callback_guard, length_callback_sets_guard.
Qed.

(** ** The JSON content type in the merge *)

Lemma merge_adds_content_type H len :
  Caseless.has H "content-type" = None ->
  Caseless.get
    (merge_headers H
       [("content-length", HStr len); ("content-type", HStr "application/json")])
    "content-type" = Some (HStr "application/json").
Proof.
  intros HH. unfold merge_headers. simpl.
  assert (Hstep : forall hs,
             Caseless.has hs "content-type" = None ->
             Caseless.get (Caseless.set hs "content-type" (HStr "application/json"))
               "content-type" = Some (HStr "application/json")).
  { intros hs Hhs. rewrite CaselessFacts.set_absent by assumption.
    unfold Caseless.get. rewrite CaselessFacts.has_app, Hhs. simpl.
    rewrite obj_get_app, (CaselessFacts.has_None_get _ _ Hhs). reflexivity. }
  destruct (Caseless.has H "content-length") eqn:Hcl.
  - rewrite HH. now apply Hstep.
  - rewrite CaselessFacts.set_absent by assumption.
    rewrite CaselessFacts.has_app, HH. simpl.
    apply Hstep. rewrite CaselessFacts.has_app, HH. reflexivity.
Qed.

(** ** Splitting a short trace *)

(** [H : e1 :: ... :: en :: [] = pre ++ x :: post]: go through the places
    where [x] can sit; a place whose event is of another kind is closed. *)
Ltac unroll_trace H pre :=
  simpl in H;
  destruct pre as [|? pre]; simpl in H;
  [ first [discriminate H | injection H; intros; subst]
  | first [discriminate H | injection H as ? H; subst; unroll_trace H pre] ].

(** * The claims *)

Section Claims.
Import Samples.
Variable handleQs : string -> obj value -> string.
Variable basicRequest : Transport.

(** C1, as amended.  For a verb that upper-cases to GET, DELETE or HEAD
    and options whose [body] is truthy, whatever [json] and [form] are,
    the promise is rejected with the error "You cannot pass a body to a
    <METHOD> request." and no call at all reaches the transport. *)
Theorem bodyless_verb_rejects_body m u a :
  valid_options a = true ->
  In (toUpperCase m) ["GET"; "DELETE"; "HEAD"]%string ->
  truthy (body (options_object a)) = true ->
  exists st,
    request handleQs basicRequest (VStr m) (VStr u) a = Normal st
    /\ st_promise st =
       Rejected
         (VError ErrorK
            ("You cannot pass a body to a " ++ toUpperCase m ++ " request.")%string)
    /\ st_trace st = [].
Proof.
  intros Hv Hm Hb. apply duplex_false in Hm.
  rewrite (request_bodyless_body handleQs basicRequest m u a Hv Hm Hb).
  eexists. split; [reflexivity|]. split; reflexivity.
Qed.

(** C2.  Caller-supplied headers win the merge.  For caller headers [H]
    and body-derived headers [B]: a key present in both, compared without
    regard to case, reads in the merged map as it reads in [H]; every
    entry of [H] is kept as spelled; an entry of the merged map that is
    not an entry of [H] has a key absent from [H] and the value [B] gives
    it; and on the duplex path the one transport invocation carries
    exactly this merged map. *)
Theorem caller_headers_win (H B : IncomingHttpHeaders) :
  (forall key,
      Caseless.has H key <> None -> Caseless.has B key <> None ->
      Caseless.get (merge_headers H B) key = Caseless.get H key)
  /\ (forall k v,
         obj_get H k = Some v -> obj_get (merge_headers H B) k = Some v)
  /\ (forall k v,
         obj_get (merge_headers H B) k = Some v ->
         obj_get H k = Some v
         \/ (Caseless.has H k = None /\ obj_get B k = Some v))
  /\ (forall m u a b,
         valid_options a = true ->
         duplex (toUpperCase m) = true ->
         headers_or_empty (options_object a) = H ->
         handleBody (options_object a) = Normal b ->
         getHeaders b = Fulfilled B ->
         exists st cfg,
           request handleQs basicRequest (VStr m) (VStr u) a = Normal st
           /\ transport_calls (st_trace st) =
              [(toUpperCase m, target handleQs u (options_object a), cfg)]
           /\ t_headers cfg = Some (merge_headers H B)).
Proof.
  split; [|split; [|split]].
  - intros key HH _. now apply merge_caller_wins.
  - intros k v. apply merge_keeps_entry.
  - intros k v. apply merge_only_adds_absent.
  - intros m u a b Hv Hd HH Hb Hh.
    destruct (request_transport_call handleQs basicRequest m u a b B Hv Hd Hb Hh)
      as [st [Hst [_ Hcalls]]].
    exists st. eexists. split; [exact Hst|]. split; [exact Hcalls|].
    simpl. now rewrite HH.
Qed.

(** C3.  A form whose length callback is first invoked with an error makes
    [FormBody.getHeaders] reject, and never with a raw string: a string
    error is wrapped into an [Error] carrying it as message, anything else
    is passed on as it is, so that a string or object error gives an
    object.  Whatever the callback is invoked with first, error or length,
    every later invocation leaves the guard, the header object and the
    promise as the first one left them. *)
Theorem form_length_error_rejects_once (f : FormData) err len later :
  fd_length_calls f = (err, len) :: later ->
  truthy err = true ->
  (exists e,
      getHeaders (FormBody f) = Rejected e
      /\ typeof e <> "string"
      /\ (forall s, err = VStr s -> e = VError ErrorK s)
      /\ (typeof err <> "string" -> e = err)
      /\ (typeof err = "string" \/ typeof err = "object" -> typeof e = "object"))
  /\ (forall first calls,
         FormBodyImpl.run f (first :: calls) = FormBodyImpl.run f [first]).
Proof.
  intros Hcalls Herr. split; [|intros first calls; apply run_first_wins].
  simpl. unfold FormBodyImpl.getHeaders. rewrite Hcalls, run_first_wins.
  unfold FormBodyImpl.run. simpl. rewrite Herr.
  destruct (typeof err =? "string") eqn:Hty.
  - apply String.eqb_eq, typeof_string in Hty. destruct Hty as [s ->].
    exists (VError ErrorK s). simpl.
    split; [reflexivity|]. split; [discriminate|].
    split; [now intros s' [= <-]|]. split; [congruence|reflexivity].
  - apply String.eqb_neq in Hty.
    exists err. simpl.
    split; [reflexivity|]. split; [exact Hty|].
    split; [intros s ->; now contradiction Hty|].
    split; [reflexivity|]. intros [H|H]; [contradiction|exact H].
Qed.

(** C4.  On a duplex verb with [body], [json] and [form] all absent, the
    body selector yields the Buffer variant over zero bytes, its headers
    resolve to [content-length: 0], and that body is what the request
    asks headers of, hands to the transport call and pipes into the sink
    the transport returns. *)
Theorem absent_body_is_empty_buffer m u a :
  valid_options a = true ->
  duplex (toUpperCase m) = true ->
  body (options_object a) = VUndefined ->
  json (options_object a) = None ->
  form (options_object a) = None ->
  handleBody (options_object a) = Normal (BufferBody [] [])
  /\ getHeaders (BufferBody [] []) = Fulfilled [("content-length", HStr "0")]
  /\ exists st cfg,
       request handleQs basicRequest (VStr m) (VStr u) a = Normal st
       /\ st_trace st =
          [EvGetHeaders (BufferBody [] []);
           EvThen (BufferBody [] []) [("content-length", HStr "0")];
           EvBasicRequest (toUpperCase m)
             (target handleQs u (options_object a)) cfg]
          ++ pipe_events (BufferBody [] [])
               (tr_returns basicRequest (toUpperCase m)
                  (target handleQs u (options_object a)) cfg).
Proof.
  intros Hv Hd Hbody Hjson Hform.
  assert (Hb : handleBody (options_object a) = Normal (BufferBody [] [])).
  { unfold handleBody, resolve_body. now rewrite Hform, Hjson, Hbody. }
  split; [exact Hb|]. split; [reflexivity|].
  destruct (request_headers_fulfilled handleQs basicRequest m u a Hv
              (BufferBody [] []) [("content-length", HStr "0")] Hd Hb eq_refl)
    as [p ->].
  eexists. eexists. split; reflexivity.
Qed.

(** C5.  With [json: {a: 1}] and no form, the selected body is the Buffer
    variant over the bytes of [{"a":1}] with the extra header
    [content-type: application/json]; its headers resolve to
    [content-length: 7] and that content type; merged into caller headers
    that have no content-type key (in any case) the content type reads
    [application/json], and otherwise it reads as the caller set it. *)
Theorem json_body_and_content_type (o : Options) :
  json o = Some a1 ->
  form o = None ->
  let b := BufferBody a1_bytes [("content-type", HStr "application/json")] in
  let B := [("content-length", HStr "7");
            ("content-type", HStr "application/json")] in
  handleBody o = Normal b
  /\ getHeaders b = Fulfilled B
  /\ (forall H,
         Caseless.has H "content-type" = None ->
         Caseless.get (merge_headers H B) "content-type" =
         Some (HStr "application/json"))
  /\ (forall H,
         Caseless.has H "content-type" <> None ->
         Caseless.get (merge_headers H B) "content-type" =
         Caseless.get H "content-type")
  /\ (forall m u,
         duplex (toUpperCase m) = true ->
         exists st,
           request handleQs basicRequest (VStr m) (VStr u) (OptObject o) =
           Normal st
           /\ transport_calls (st_trace st) =
              [(toUpperCase m, target handleQs u o,
                transport_options (merged_options o B))]).
Proof.
  intros Hjson Hform b B.
  assert (Hb : handleBody o = Normal b).
  { unfold handleBody, resolve_body. now rewrite Hform, Hjson. }
  split; [exact Hb|]. split; [reflexivity|].
  split; [|split].
  - intros H HH. apply merge_adds_content_type; assumption.
  - intros H HH. now apply merge_caller_wins.
  - intros m u Hd.
    destruct (request_transport_call handleQs basicRequest m u (OptObject o)
                b B eq_refl Hd Hb eq_refl) as [st [Hst [_ Hcalls]]].
    exists st. split; assumption.
Qed.

(** C6.  A body that exposes a [pipe] function is wrapped in the Stream
    variant (when no form is given and [json] is unset), whose headers
    resolve at once to the empty map, whatever the stream holds; merging
    them changes nothing, so the transport receives the caller's headers
    as they were and no [content-length] is derived from the body. *)
Theorem stream_body_adds_no_header (s : value) :
  has_pipe s = true ->
  getHeaders (StreamBody s) = Fulfilled []
  /\ (forall H, merge_headers H [] = H)
  /\ (forall o,
         form o = None -> json_set (json o) = false -> body o = s ->
         handleBody o = Normal (StreamBody s))
  /\ (forall m u a,
         valid_options a = true ->
         duplex (toUpperCase m) = true ->
         form (options_object a) = None ->
         json_set (json (options_object a)) = false ->
         body (options_object a) = s ->
         exists st,
           request handleQs basicRequest (VStr m) (VStr u) a = Normal st
           /\ transport_calls (st_trace st) =
              [(toUpperCase m, target handleQs u (options_object a),
                transport_options (with_headers (options_object a)))]).
Proof.
  intros Hs.
  assert (Hsel : forall o,
             form o = None -> json_set (json o) = false -> body o = s ->
             handleBody o = Normal (StreamBody s)).
  { intros o Hform Hjson Hbody. unfold handleBody, resolve_body.
    rewrite Hform, Hbody. unfold json_set in Hjson.
    destruct (json o) as [j|]; [rewrite Hjson|];
      destruct s; try discriminate; reflexivity. }
  split; [reflexivity|]. split; [reflexivity|]. split; [exact Hsel|].
  intros m u a Hv Hd Hform Hjson Hbody.
  destruct (request_transport_call handleQs basicRequest m u a
              (StreamBody s) [] Hv Hd (Hsel _ Hform Hjson Hbody) eq_refl)
    as [st [Hst [_ Hcalls]]].
  exists st. split; [exact Hst|exact Hcalls].
Qed.

(** C7.  Every usage error (a method that is not a string, a URL that is
    not a string, an options argument that is neither an object nor null
    nor omitted, a resolved body that is neither a buffer nor a stream)
    comes back as a promise rejected with the matching [TypeError]:
    [request] itself returns normally, and no collaborator was called. *)
Theorem usage_errors_reject method url a e :
  usage_error method url a e ->
  exists st,
    request handleQs basicRequest method url a = Normal st
    /\ st_promise st = Rejected e
    /\ st_trace st = [].
Proof.
  intros [method' url' a' Hm
         |m url' a' Hu
         |m u v Hundef Hnull Hobj
         |m u a' Hv Hd Hform Hbuf Hpipe].
  - rewrite request_bad_method by assumption. eauto.
  - rewrite request_bad_url by assumption. eauto.
  - rewrite request_bad_options; [eauto|].
    destruct v; simpl in *; try reflexivity; congruence.
  - rewrite (request_body_throws handleQs basicRequest m u a' Hv
               (VError TypeErrorK "body should be a Buffer or a String") Hd);
      [eauto|].
    unfold handleBody. rewrite Hform.
    destruct (resolve_body (options_object a')) as [r extra]. simpl in *.
    rewrite Hpipe. destruct r; try discriminate; reflexivity.
Qed.

(** C8.  For a request that has a body [b]: a transport invocation is
    preceded in the trace by the [then] callback of [b.getHeaders()]
    running with the headers that promise was fulfilled with; a [pipe] is
    of [b], and is preceded by a transport invocation that returned the
    very sink piped into; and when the header promise is rejected the
    request is rejected with the same error and the transport is not
    invoked at all. *)
Theorem headers_resolve_before_transport m u a b :
  valid_options a = true ->
  duplex (toUpperCase m) = true ->
  handleBody (options_object a) = Normal b ->
  exists st,
    request handleQs basicRequest (VStr m) (VStr u) a = Normal st
    /\ (forall pre method url cfg post,
           st_trace st = pre ++ EvBasicRequest method url cfg :: post ->
           exists B, getHeaders b = Fulfilled B /\ In (EvThen b B) pre)
    /\ (forall pre b' sink post,
           st_trace st = pre ++ EvPipe b' sink :: post ->
           b' = b
           /\ exists method url cfg,
                In (EvBasicRequest method url cfg) pre
                /\ tr_returns basicRequest method url cfg = Some sink)
    /\ (forall e,
           getHeaders b = Rejected e ->
           st_promise st = Rejected e /\ transport_calls (st_trace st) = []).
Proof.
  intros Hv Hd Hb.
  destruct (getHeaders b) as [|B|e] eqn:Hh.
  - rewrite (request_headers_pending handleQs basicRequest m u a Hv b Hd Hb Hh).
    eexists. split; [reflexivity|]. simpl. split; [|split].
    + intros pre method url cfg post H. now unroll_trace H pre.
    + intros pre b' sink post H. now unroll_trace H pre.
    + discriminate.
  - destruct (request_headers_fulfilled handleQs basicRequest m u a Hv b B Hd Hb Hh)
      as [p ->].
    eexists. split; [reflexivity|]. simpl. split; [|split].
    + intros pre method url cfg post H. exists B. split; [reflexivity|].
      destruct (tr_returns basicRequest _ _ _); unroll_trace H pre;
        simpl; tauto.
    + intros pre b' sink post H.
      destruct (tr_returns basicRequest _ _ _) as [sink'|] eqn:Hsink;
        unroll_trace H pre.
      split; [reflexivity|].
      eexists. eexists. eexists. split; [|exact Hsink]. simpl. tauto.
    + discriminate.
  - rewrite (request_headers_rejected handleQs basicRequest m u a Hv b e Hd Hb Hh).
    eexists. split; [reflexivity|]. simpl. split; [|split].
    + intros pre method url cfg post H. now unroll_trace H pre.
    + intros pre b' sink post H. now unroll_trace H pre.
    + intros e' [= <-]. split; reflexivity.
Qed.

(** C9, as amended.  [request] leaves every field of the caller's options
    object as it was except [headers]: that field may be assigned (an
    empty map when the caller gave none) and the map may gain body-derived
    entries, but every entry the caller's map had is still there with its
    value. *)
Theorem options_only_headers_change method url (o : Options) :
  exists st h,
    request handleQs basicRequest method url (OptObject o) = Normal st
    /\ st_options st = set_headers h o
    /\ (forall H k v,
           headers o = Some H -> obj_get H k = Some v ->
           exists H', h = Some H' /\ obj_get H' k = Some v).
Proof.
  destruct (request_options_after handleQs basicRequest method url (OptObject o))
    as [st [Hst [Ho|[Ho|[B Ho]]]]]; simpl in Ho; exists st.
  - exists (headers o). split; [exact Hst|].
    split; [now rewrite set_headers_same|].
    intros H k v HH Hk. eauto.
  - eexists. split; [exact Hst|]. split; [exact Ho|].
    intros H k v HH Hk. eexists. split; [reflexivity|].
    unfold headers_or_empty. now rewrite HH.
  - eexists. split; [exact Hst|]. split; [exact Ho|].
    intros H k v HH Hk. eexists. split; [reflexivity|].
    apply merge_keeps_entry. unfold headers_or_empty. now rewrite HH.
Qed.

(** C10.  With no form and a falsy [json] (0, false, the empty string,
    null) the body selector does what it does without [json]: nothing is
    serialised, no extra header is recorded, the body comes from the
    [body] field; and when that field is falsy too the result is the
    Buffer variant over zero bytes with no extra header. *)
Theorem falsy_json_and_body_are_absent (o : Options) j :
  form o = None ->
  json o = Some j ->
  json_truthy j = false ->
  handleBody o = handleBody (without_json o)
  /\ snd (resolve_body o) = []
  /\ fst (resolve_body o) =
     match body o with
     | VStr s => VBuffer (Buffer_from s)
     | v => if truthy v then v else VBuffer []
     end
  /\ (truthy (body o) = false -> handleBody o = Normal (BufferBody [] [])).
Proof.
  intros Hform Hjson Hj.
  unfold handleBody, resolve_body. simpl. rewrite Hform, Hjson, Hj.
  split; [reflexivity|]. split; [now destruct (body o)|].
  split.
  - destruct (body o) as [| |[]|n|s| | | | |]; try reflexivity.
    simpl. now destruct (n =? 0)%Z.
  - destruct (body o) as [| |[]|n|s| | | | |]; simpl; try discriminate;
      try reflexivity.
    + now destruct (n =? 0)%Z.
    + destruct s; [reflexivity|discriminate].
Qed.

End Claims.

(** * Concrete runs *)

Module Runs.
Import Samples.

(** C1 as stated fails: a GET that supplies [json] and no [body] is
    handed to the transport and resolves with its answer. *)
Lemma bodyless_verb_dispatches_json :
  json (options_with VUndefined (Some a1) None None) = Some a1
  /\ request keep_url answering (VStr "GET") (VStr "http://x/")
       (OptObject (options_with VUndefined (Some a1) None None)) =
     Normal
       {| st_options := options_with VUndefined (Some a1) None (Some []);
          st_promise :=
            Fulfilled {| statusCode := 204; res_headers := []; res_body := [];
                         res_url := "http://x/" |};
          st_trace :=
            [EvBasicRequest "GET" "http://x/"
               (transport_options
                  (options_with VUndefined (Some a1) None (Some [])))] |}.
Proof. split; reflexivity. Qed.

Lemma bodyless_verb_rejects_body_run :
  exists st,
    request keep_url answering (VStr "delete") (VStr "http://x/")
      (OptObject (options_with (VStr "hi") (Some a1) None None)) = Normal st
    /\ st_promise st =
       Rejected (VError ErrorK "You cannot pass a body to a DELETE request.")
    /\ st_trace st = [].
Proof.
  apply (bodyless_verb_rejects_body keep_url answering "delete" "http://x/"
           (OptObject (options_with (VStr "hi") (Some a1) None None))).
  - reflexivity.
  - simpl. tauto.
  - reflexivity.
Defined.

(** A caller's [Content-Length: 99] against the [content-length: 2] of
    the body ["hi"]. *)
Lemma caller_headers_win_run :
  Caseless.get
    (merge_headers [("Content-Length", HStr "99")] [("content-length", HStr "2")])
    "content-length" =
  Caseless.get [("Content-Length", HStr "99")] "content-length"
  /\ exists st cfg,
       request keep_url answering (VStr "post") (VStr "http://x/")
         (OptObject
            (options_with (VStr "hi") None None
               (Some [("Content-Length", HStr "99")]))) = Normal st
       /\ transport_calls (st_trace st) = [("POST"%string, "http://x/"%string, cfg)]
       /\ t_headers cfg =
          Some (merge_headers [("Content-Length", HStr "99")]
                  [("content-length", HStr "2")]).
Proof.
  destruct (caller_headers_win keep_url answering
              [("Content-Length", HStr "99")] [("content-length", HStr "2")])
    as [Hboth [_ [_ Hsent]]].
  split.
  - apply Hboth; simpl; discriminate.
  - apply (Hsent "post" "http://x/"
             (OptObject
                (options_with (VStr "hi") None None
                   (Some [("Content-Length", HStr "99")])))
             (BufferBody [x68; x69] [])); reflexivity.
Defined.

Lemma form_length_error_rejects_once_run :
  (exists e,
      getHeaders (FormBody failing_form) = Rejected e
      /\ typeof e <> "string"
      /\ (forall s, VStr "Unknown stream" = VStr s -> e = VError ErrorK s)
      /\ (typeof (VStr "Unknown stream") <> "string" -> e = VStr "Unknown stream")
      /\ (typeof (VStr "Unknown stream") = "string"
          \/ typeof (VStr "Unknown stream") = "object" -> typeof e = "object"))
  /\ (forall first calls,
         FormBodyImpl.run failing_form (first :: calls) =
         FormBodyImpl.run failing_form [first]).
Proof.
  apply (form_length_error_rejects_once failing_form
           (VStr "Unknown stream") 0%Z [(VNull, 10%Z)]).
  - reflexivity.
  - reflexivity.
Defined.

Lemma absent_body_is_empty_buffer_run :
  handleBody (options_object (OptValue VUndefined)) = Normal (BufferBody [] [])
  /\ getHeaders (BufferBody [] []) = Fulfilled [("content-length", HStr "0")]
  /\ exists st cfg,
       request keep_url answering (VStr "post") (VStr "http://x/")
         (OptValue VUndefined) = Normal st
       /\ st_trace st =
          [EvGetHeaders (BufferBody [] []);
           EvThen (BufferBody [] []) [("content-length", HStr "0")];
           EvBasicRequest (toUpperCase "post")
             (target keep_url "http://x/" (options_object (OptValue VUndefined)))
             cfg]
          ++ pipe_events (BufferBody [] [])
               (tr_returns answering (toUpperCase "post")
                  (target keep_url "http://x/"
                     (options_object (OptValue VUndefined))) cfg).
Proof.
  apply (absent_body_is_empty_buffer keep_url answering "post" "http://x/"
           (OptValue VUndefined)); reflexivity.
Defined.

Lemma json_body_and_content_type_run :
  handleBody (options_with VUndefined (Some a1) None None) =
  Normal (BufferBody a1_bytes [("content-type", HStr "application/json")])
  /\ Buffer_from (JSON_stringify a1) = a1_bytes.
Proof.
  split.
  - apply (json_body_and_content_type keep_url answering
             (options_with VUndefined (Some a1) None None));
      reflexivity.
  - reflexivity.
Defined.

Lemma stream_body_adds_no_header_run :
  getHeaders (StreamBody (VStream [x68; x69])) = Fulfilled [].
Proof.
  apply (stream_body_adds_no_header keep_url answering (VStream [x68; x69])).
  reflexivity.
Defined.

Lemma usage_errors_reject_run :
  exists st,
    request keep_url answering (VStr "post") (VStr "http://x/")
      (OptObject (options_with (VNum 5) None None None)) = Normal st
    /\ st_promise st =
       Rejected (VError TypeErrorK "body should be a Buffer or a String")
    /\ st_trace st = [].
Proof.
  apply (usage_errors_reject keep_url answering).
  apply bad_body; reflexivity.
Defined.

Lemma headers_resolve_before_transport_run :
  exists st,
    request keep_url answering (VStr "post") (VStr "http://x/")
      (OptObject (options_with (VStr "hi") None None None)) = Normal st
    /\ (forall pre method url cfg post,
           st_trace st = pre ++ EvBasicRequest method url cfg :: post ->
           exists B,
             getHeaders (BufferBody [x68; x69] []) = Fulfilled B
             /\ In (EvThen (BufferBody [x68; x69] []) B) pre)
    /\ (forall pre b' sink post,
           st_trace st = pre ++ EvPipe b' sink :: post ->
           b' = BufferBody [x68; x69] []
           /\ exists method url cfg,
                In (EvBasicRequest method url cfg) pre
                /\ tr_returns answering method url cfg = Some sink)
    /\ (forall e,
           getHeaders (BufferBody [x68; x69] []) = Rejected e ->
           st_promise st = Rejected e /\ transport_calls (st_trace st) = []).
Proof.
  apply (headers_resolve_before_transport keep_url answering "post" "http://x/"
           (OptObject (options_with (VStr "hi") None None None))
           (BufferBody [x68; x69] [])); reflexivity.
Defined.

(** C9 as stated fails: a PUT of ["hi"] with no headers leaves the
    caller's options object with a [headers] map holding the body's
    content length. *)
Lemma request_writes_caller_headers :
  exists st,
    request keep_url answering (VStr "PUT") (VStr "http://x/")
      (OptObject (options_with (VStr "hi") None None None)) = Normal st
    /\ headers (options_with (VStr "hi") None None None) = None
    /\ headers (st_options st) = Some [("content-length", HStr "2")]
    /\ st_options st <> options_with (VStr "hi") None None None.
Proof.
  eexists. split; [reflexivity|]. split; [reflexivity|].
  split; [reflexivity|]. discriminate.
Qed.

Lemma options_only_headers_change_run :
  exists st h,
    request keep_url answering (VStr "PUT") (VStr "http://x/")
      (OptObject
         (options_with (VStr "hi") None None (Some [("Accept", HStr "*/*")]))) =
    Normal st
    /\ st_options st =
       set_headers h
         (options_with (VStr "hi") None None (Some [("Accept", HStr "*/*")]))
    /\ exists H', h = Some H' /\ obj_get H' "Accept" = Some (HStr "*/*").
Proof.
  destruct (options_only_headers_change keep_url answering
              (VStr "PUT") (VStr "http://x/")
              (options_with (VStr "hi") None None (Some [("Accept", HStr "*/*")])))
    as [st [h [Hst [Ho Hkeep]]]].
  exists st, h. split; [exact Hst|]. split; [exact Ho|].
  apply (Hkeep [("Accept", HStr "*/*")]); reflexivity.
Defined.

Lemma falsy_json_and_body_are_absent_run :
  handleBody (options_with (VBool false) (Some (JNum 0)) None None) =
  Normal (BufferBody [] []).
Proof.
  apply (falsy_json_and_body_are_absent
           (options_with (VBool false) (Some (JNum 0)) None None) (JNum 0));
    reflexivity.
Defined.

(** [request('PUT', 'http://x/', {body: 'hi'})]: the transport is called
    with [content-length: 2], the two bytes are piped into its sink, and
    the promise resolves with what the transport answered. *)
Example put_hi :
  request keep_url answering (VStr "PUT") (VStr "http://x/")
    (OptObject (options_with (VStr "hi") None None None)) =
  Normal
    {| st_options :=
         options_with (VStr "hi") None None (Some [("content-length", HStr "2")]);
       st_promise :=
         Fulfilled {| statusCode := 204; res_headers := []; res_body := [];
                      res_url := "http://x/" |};
       st_trace :=
         [EvGetHeaders (BufferBody [x68; x69] []);
          EvThen (BufferBody [x68; x69] []) [("content-length", HStr "2")];
          EvBasicRequest "PUT" "http://x/"
            (transport_options
               (options_with (VStr "hi") None None
                  (Some [("content-length", HStr "2")])));
          EvPipe (BufferBody [x68; x69] []) 1] |}.
Proof. reflexivity. Qed.

(** A form whose length arrives: its own headers and the length. *)
Example form_headers :
  getHeaders
    (FormBody
       {| fd_headers := [("content-type", HStr "multipart/form-data; boundary=x")];
          fd_length_calls := [(VNull, 42%Z); (VStr "late", 0%Z)] |}) =
  Fulfilled
    [("content-type", HStr "multipart/form-data; boundary=x");
     ("content-length", HStr "42")].
Proof. reflexivity. Qed.

(** A number as options is refused before anything else happens. *)
Example options_not_an_object :
  request keep_url answering (VStr "GET") (VStr "http://x/") (OptValue (VNum 5)) =
  Normal
    {| st_options := empty_options;
       st_promise :=
         Rejected (VError TypeErrorK "Options must be an object (or null).");
       st_trace := [] |}.
Proof. reflexivity. Qed.

End Runs.

(** * Further properties of the dispatch *)

(** ** The completion callback *)

Lemma on_complete_exact call st :
  on_complete call st =
  (Normal tt,
   {| st_options := st_options st;
      st_promise := completion_step (st_promise st) call;
      st_trace := st_trace st |}).
Proof.
  destruct call as [err res]. unfold completion_step, on_complete.
  destruct (truthy err);
    [|destruct res as [res|]; [destruct (rs_error (in_body res))|]];
    reflexivity.
Qed.

Lemma each_on_complete_exact calls : forall st,
  each on_complete calls st =
  (Normal tt,
   {| st_options := st_options st;
      st_promise := fold_left completion_step calls (st_promise st);
      st_trace := st_trace st |}).
Proof.
  induction calls as [|call calls IH]; intros st; simpl.
  - now destruct st.
  - unfold bind. rewrite on_complete_exact, IH. reflexivity.
Qed.

(** The callback settles a pending promise, whatever it is invoked with. *)
Lemma completion_step_settles call :
  completion_step Pending call <> Pending.
Proof.
  destruct call as [err res]. unfold completion_step, on_complete.
  destruct (truthy err);
    [|destruct res as [res|]; [destruct (rs_error (in_body res))|]];
    discriminate.
Qed.

(** A settled promise is left as it is. *)
Lemma completion_step_settled p call :
  p <> Pending -> completion_step p call = p.
Proof.
  intros Hp. destruct call as [err res]. unfold completion_step, on_complete.
  destruct (truthy err);
    [|destruct res as [res|]; [destruct (rs_error (in_body res))|]];
    destruct p; simpl; congruence.
Qed.

Lemma completions_settled calls : forall p,
  p <> Pending -> fold_left completion_step calls p = p.
Proof.
  induction calls as [|call calls IH]; intros p Hp; simpl; [reflexivity|].
  rewrite completion_step_settled by assumption. now apply IH.
Qed.

Lemma completions_first call later :
  completions (call :: later) = completion_step Pending call.
Proof.
  unfold completions. simpl.
  apply completions_settled, completion_step_settles.
Qed.

(** ** Every outcome of [request] *)

Section Outcomes.
Variable handleQs : string -> obj value -> string.
Variable basicRequest : Transport.

Lemma request_bodyless_ready_exact m u a :
  valid_options a = true ->
  duplex (toUpperCase m) = false ->
  truthy (body (options_object a)) = false ->
  request handleQs basicRequest (VStr m) (VStr u) a =
  Normal
    {| st_options := with_headers (options_object a);
       st_promise :=
         completions
           (tr_calls_back basicRequest (toUpperCase m)
              (target handleQs u (options_object a))
              (transport_options (with_headers (options_object a))));
       st_trace :=
         [EvBasicRequest (toUpperCase m) (target handleQs u (options_object a))
            (transport_options (with_headers (options_object a)))] |}.
Proof.
  intros Hv Hd Hb. rewrite request_valid by assumption.
  unfold new_Promise, dispatch, bind. simpl.
  rewrite Hd, Hb. unfold ready, bind. simpl.
  change (target handleQs u (with_headers (options_object a)))
    with (target handleQs u (options_object a)).
  destruct (tr_returns basicRequest _ _ _); simpl;
    rewrite each_on_complete_exact; reflexivity.
Qed.

Lemma request_headers_fulfilled_exact m u a b B :
  valid_options a = true ->
  duplex (toUpperCase m) = true ->
  handleBody (options_object a) = Normal b ->
  getHeaders b = Fulfilled B ->
  request handleQs basicRequest (VStr m) (VStr u) a =
  Normal
    {| st_options := merged_options (options_object a) B;
       st_promise :=
         completions
           (tr_calls_back basicRequest (toUpperCase m)
              (target handleQs u (options_object a))
              (transport_options (merged_options (options_object a) B)));
       st_trace :=
         [EvGetHeaders b; EvThen b B;
          EvBasicRequest (toUpperCase m) (target handleQs u (options_object a))
            (transport_options (merged_options (options_object a) B))]
         ++ pipe_events b
              (tr_returns basicRequest (toUpperCase m)
                 (target handleQs u (options_object a))
                 (transport_options (merged_options (options_object a) B))) |}.
Proof.
  intros Hv Hd Hb Hh. rewrite request_valid by assumption.
  unfold new_Promise, dispatch, bind. simpl.
  rewrite Hd.
  change (handleBody (with_headers (options_object a)))
    with (handleBody (options_object a)).
  rewrite Hb. simpl. rewrite Hh.
  unfold then_catch, catch, ready, bind. simpl.
  change (target handleQs u (with_headers (options_object a)))
    with (target handleQs u (options_object a)).
  change (set_headers _ (with_headers (options_object a)))
    with (merged_options (options_object a) B).
  destruct (tr_returns basicRequest _ _ _); simpl;
    rewrite each_on_complete_exact; reflexivity.
Qed.

(** The four ways a call of [request] can go: it fails before any
    collaborator is called; it asks the body for headers that do not
    arrive; it asks, merges and dispatches with the body; it dispatches
    without a body. *)
Lemma request_outcomes method url a :
  exists st,
    request handleQs basicRequest method url a = Normal st
    /\ ((st_trace st = [] /\ exists e, st_promise st = Rejected e)
        \/ (exists m u b,
               method = VStr m /\ url = VStr u /\ valid_options a = true
               /\ duplex (toUpperCase m) = true
               /\ handleBody (options_object a) = Normal b
               /\ st_options st = with_headers (options_object a)
               /\ st_trace st = [EvGetHeaders b]
               /\ ((getHeaders b = Pending /\ st_promise st = Pending)
                   \/ exists e,
                        getHeaders b = Rejected e /\ st_promise st = Rejected e))
        \/ (exists m u b B,
               method = VStr m /\ url = VStr u /\ valid_options a = true
               /\ duplex (toUpperCase m) = true
               /\ handleBody (options_object a) = Normal b
               /\ getHeaders b = Fulfilled B
               /\ st =
                  {| st_options := merged_options (options_object a) B;
                     st_promise :=
                       completions
                         (tr_calls_back basicRequest (toUpperCase m)
                            (target handleQs u (options_object a))
                            (transport_options
                               (merged_options (options_object a) B)));
                     st_trace :=
                       [EvGetHeaders b; EvThen b B;
                        EvBasicRequest (toUpperCase m)
                          (target handleQs u (options_object a))
                          (transport_options
                             (merged_options (options_object a) B))]
                       ++ pipe_events b
                            (tr_returns basicRequest (toUpperCase m)
                               (target handleQs u (options_object a))
                               (transport_options
                                  (merged_options (options_object a) B))) |})
        \/ (exists m u,
               method = VStr m /\ url = VStr u /\ valid_options a = true
               /\ duplex (toUpperCase m) = false
               /\ truthy (body (options_object a)) = false
               /\ st =
                  {| st_options := with_headers (options_object a);
                     st_promise :=
                       completions
                         (tr_calls_back basicRequest (toUpperCase m)
                            (target handleQs u (options_object a))
                            (transport_options
                               (with_headers (options_object a))));
                     st_trace :=
                       [EvBasicRequest (toUpperCase m)
                          (target handleQs u (options_object a))
                          (transport_options
                             (with_headers (options_object a)))] |})).
Proof.
  destruct (typeof method =? "string") eqn:Hm.
  2:{ eexists. split; [apply request_bad_method|left; simpl; eauto].
      intros E. rewrite E in Hm. discriminate. }
  apply String.eqb_eq, typeof_string in Hm. destruct Hm as [m ->].
  destruct (typeof url =? "string") eqn:Hu.
  2:{ eexists. split; [apply request_bad_url|left; simpl; eauto].
      intros E. rewrite E in Hu. discriminate. }
  apply String.eqb_eq, typeof_string in Hu. destruct Hu as [u ->].
  destruct (valid_options a) eqn:Hv.
  2:{ eexists. split; [now apply request_bad_options|left; simpl; eauto]. }
  destruct (duplex (toUpperCase m)) eqn:Hd.
  - destruct (handleBody (options_object a)) as [b|e] eqn:Hb.
    + destruct (getHeaders b) as [|B|e] eqn:Hh.
      * eexists. split;
          [exact (request_headers_pending handleQs basicRequest m u a Hv b Hd Hb Hh)|].
        right. left. exists m, u, b. simpl. intuition eauto.
      * eexists. split;
          [exact (request_headers_fulfilled_exact m u a b B Hv Hd Hb Hh)|].
        right. right. left. exists m, u, b, B. intuition eauto.
      * eexists. split;
          [exact (request_headers_rejected handleQs basicRequest m u a Hv b e Hd Hb Hh)|].
        right. left. exists m, u, b. simpl. intuition eauto.
    + eexists. split;
        [exact (request_body_throws handleQs basicRequest m u a Hv e Hd Hb)|].
      left. simpl. eauto.
  - destruct (truthy (body (options_object a))) eqn:Hb.
    + eexists. split;
        [exact (request_bodyless_body handleQs basicRequest m u a Hv Hd Hb)|].
      left. simpl. eauto.
    + eexists. split; [exact (request_bodyless_ready_exact m u a Hv Hd Hb)|].
      right. right. right. exists m, u. intuition eauto.
Qed.

End Outcomes.

Lemma upper_ascii_idem c : upper_ascii (upper_ascii c) = upper_ascii c.
Proof. destruct c as [[] [] [] [] [] [] [] []]; reflexivity. Qed.

Lemma toUpperCase_idem s : toUpperCase (toUpperCase s) = toUpperCase s.
Proof.
  induction s as [|c s IH]; simpl; [reflexivity|].
  now rewrite upper_ascii_idem, IH.
Qed.

Lemma not_false_iff v : not_false v = false <-> v = VBool false.
Proof.
  split.
  - destruct v as [| |[]| | | | | | |]; simpl; intros H;
      try discriminate; reflexivity.
  - intros ->. reflexivity.
Qed.

Section Reached.
Variable handleQs : string -> obj value -> string.
Variable basicRequest : Transport.

(** A transport call found in the trace is the only one; it was made with
    the upper-cased verb, the target and the configuration built from the
    options object as it then was, and the promise is what the transport's
    callbacks made of it. *)
Lemma request_reached method url a st M U cfg :
  request handleQs basicRequest method url a = Normal st ->
  In (M, U, cfg) (transport_calls (st_trace st)) ->
  transport_calls (st_trace st) = [(M, U, cfg)]
  /\ st_promise st = completions (tr_calls_back basicRequest M U cfg)
  /\ cfg = transport_options (st_options st)
  /\ exists m u hs,
       method = VStr m /\ url = VStr u
       /\ M = toUpperCase m
       /\ U = target handleQs u (options_object a)
       /\ st_options st = set_headers (Some hs) (options_object a).
Proof.
  intros Hst Hin.
  destruct (request_outcomes handleQs basicRequest method url a)
    as [st' [Hst' Hcases]].
  rewrite Hst in Hst'. injection Hst' as <-.
  destruct Hcases
    as [[Htr _]
       |[(m & u & b & _ & _ & _ & _ & _ & _ & Htr & _)
        |[(m & u & b & B & -> & -> & _ & _ & _ & _ & ->)
         |(m & u & -> & -> & _ & _ & _ & ->)]]].
  - rewrite Htr in Hin. contradiction.
  - rewrite Htr in Hin. contradiction.
  - cbn [st_trace st_promise st_options] in *.
    rewrite transport_calls_fulfilled in Hin |- *.
    destruct Hin as [[= <- <- <-]|[]].
    split; [reflexivity|]. split; [reflexivity|]. split; [reflexivity|].
    eexists. eexists. eexists.
    split; [reflexivity|]. split; [reflexivity|]. split; [reflexivity|].
    split; reflexivity.
  - simpl in Hin. destruct Hin as [[= <- <- <-]|[]]. simpl.
    split; [reflexivity|]. split; [reflexivity|]. split; [reflexivity|].
    eexists. eexists. eexists.
    split; [reflexivity|]. split; [reflexivity|]. split; [reflexivity|].
    split; reflexivity.
Qed.

(** X1.  When the transport's first invocation of the completion callback
    carries an error, the request is rejected with that very error, whatever
    response came with it and whatever the transport calls back with
    later. *)
Theorem transport_error_rejects method url a st M U cfg err res later :
  request handleQs basicRequest method url a = Normal st ->
  In (M, U, cfg) (transport_calls (st_trace st)) ->
  tr_calls_back basicRequest M U cfg = (err, res) :: later ->
  truthy err = true ->
  st_promise st = Rejected err.
Proof.
  intros Hst Hin Hcalls Herr.
  destruct (request_reached _ _ _ _ _ _ _ Hst Hin) as [_ [-> _]].
  rewrite Hcalls, completions_first.
  unfold completion_step, on_complete. now rewrite Herr.
Qed.

(** X2.  When the first completion carries neither an error nor a response,
    the request is rejected with the error "No request was received". *)
Theorem missing_response_rejects method url a st M U cfg err later :
  request handleQs basicRequest method url a = Normal st ->
  In (M, U, cfg) (transport_calls (st_trace st)) ->
  tr_calls_back basicRequest M U cfg = (err, None) :: later ->
  truthy err = false ->
  st_promise st = Rejected (VError ErrorK "No request was received").
Proof.
  intros Hst Hin Hcalls Herr.
  destruct (request_reached _ _ _ _ _ _ _ Hst Hin) as [_ [-> _]].
  rewrite Hcalls, completions_first.
  unfold completion_step, on_complete. now rewrite Herr.
Qed.




(** X6.  In one call of [request] the body is asked for its headers at most
    once, the transport is invoked at most once, and there is at most one
    [pipe], none without a transport invocation. *)
Theorem each_collaborator_at_most_once method url a :
  exists st,
    request handleQs basicRequest method url a = Normal st
    /\ length (header_requests (st_trace st)) <= 1
    /\ length (transport_calls (st_trace st)) <= 1
    /\ length (pipes (st_trace st)) <= length (transport_calls (st_trace st)).
Proof.
  destruct (request_outcomes handleQs basicRequest method url a)
    as [st [Hst Hcases]].
  exists st. split; [exact Hst|].
  destruct Hcases
    as [[Htr _]
       |[(m & u & b & _ & _ & _ & _ & _ & _ & Htr & _)
        |[(m & u & b & B & _ & _ & _ & _ & _ & _ & ->)
         |(m & u & _ & _ & _ & _ & _ & ->)]]].
  - rewrite Htr. simpl. lia.
  - rewrite Htr. simpl. lia.
  - simpl st_trace. destruct (tr_returns basicRequest _ _ _); simpl; lia.
  - simpl. lia.
Qed.

End Reached.

(** ** What the transport is given *)

Section Given.
Variable handleQs : string -> obj value -> string.
Variable basicRequest : Transport.

(** X7.  On GET, DELETE and HEAD with a falsy [body], the request goes
    straight to the transport: the body selector is not consulted, so that
    [json] and [form] have no effect, nothing is piped, and the headers
    given to the transport are the caller's (an empty map when there were
    none). *)
Theorem bodyless_verb_sends_no_body m u a :
  valid_options a = true ->
  In (toUpperCase m) ["GET"; "DELETE"; "HEAD"]%string ->
  truthy (body (options_object a)) = false ->
  exists st cfg,
    request handleQs basicRequest (VStr m) (VStr u) a = Normal st
    /\ st_trace st =
       [EvBasicRequest (toUpperCase m) (target handleQs u (options_object a)) cfg]
    /\ t_headers cfg = Some (headers_or_empty (options_object a)).
Proof.
  intros Hv Hm Hb. apply duplex_false in Hm.
  rewrite (request_bodyless_ready_exact handleQs basicRequest m u a Hv Hm Hb).
  eexists. eexists. split; [reflexivity|]. split; reflexivity.
Qed.

(** X8.  Whatever path led to it, the transport is given a headers map
    (never an absent one), [followRedirects] and [gzip] switched off only
    when the caller passed exactly [false], and every other knob as the
    caller passed it. *)
Theorem transport_configuration method url a st M U cfg :
  request handleQs basicRequest method url a = Normal st ->
  In (M, U, cfg) (transport_calls (st_trace st)) ->
  let o := options_object a in
  t_headers cfg <> None
  /\ (t_followRedirects cfg = false <-> followRedirects o = VBool false)
  /\ (t_gzip cfg = false <-> gzip o = VBool false)
  /\ t_allowRedirectHeaders cfg = allowRedirectHeaders o
  /\ t_maxRedirects cfg = maxRedirects o
  /\ t_cache cfg = cache o
  /\ t_agent cfg = agent o
  /\ t_timeout cfg = timeout o
  /\ t_socketTimeout cfg = socketTimeout o
  /\ t_retry cfg = retry o
  /\ t_retryDelay cfg = retryDelay o
  /\ t_maxRetries cfg = maxRetries o
  /\ t_isMatch cfg = isMatch o
  /\ t_isExpired cfg = isExpired o
  /\ t_canCache cfg = canCache o.
Proof.
  intros Hst Hin o.
  destruct (request_reached _ _ _ _ _ _ _ _ _ Hst Hin)
    as (_ & _ & -> & m & u & hs & _ & _ & _ & _ & ->).
  simpl. split; [discriminate|].
  split; [apply not_false_iff|]. split; [apply not_false_iff|].
  repeat split.
Qed.

(** X9.  The verb the transport is given is the caller's in upper case, and
    the target is the caller's URL, passed through the query-string handler
    exactly when [qs] is set. *)
Theorem transport_verb_and_target method url a st M U cfg :
  request handleQs basicRequest method url a = Normal st ->
  In (M, U, cfg) (transport_calls (st_trace st)) ->
  exists m u,
    method = VStr m /\ url = VStr u
    /\ M = toUpperCase m
    /\ toUpperCase M = M
    /\ U = match qs (options_object a) with
           | Some q => handleQs u q
           | None => u
           end.
Proof.
  intros Hst Hin.
  destruct (request_reached _ _ _ _ _ _ _ _ _ Hst Hin)
    as (_ & _ & _ & m & u & hs & -> & -> & -> & -> & _).
  exists m, u. split; [reflexivity|]. split; [reflexivity|].
  split; [reflexivity|]. split; [apply toUpperCase_idem|reflexivity].
Qed.

(** X10.  The case of the verb does not matter: a request gives the same
    promise, trace and options as the request with the verb in upper
    case. *)
Theorem verb_case_is_irrelevant m url a :
  request handleQs basicRequest (VStr m) url a =
  request handleQs basicRequest (VStr (toUpperCase m)) url a.
Proof.
  destruct (typeof url =? "string") eqn:Hu.
  - apply String.eqb_eq, typeof_string in Hu. destruct Hu as [u ->].
    destruct (valid_options a) eqn:Hv.
    + rewrite !request_valid by assumption. now rewrite toUpperCase_idem.
    + now rewrite !request_bad_options.
  - assert (Hu' : typeof url <> "string").
    { intros E. rewrite E in Hu. discriminate. }
    now rewrite !request_bad_url.
Qed.

End Given.

(** ** The body selector and the bodies' headers *)

Lemma obj_get_set_same {V} (o : obj V) k v : obj_get (obj_set o k v) k = Some v.
Proof.
  induction o as [|[k' v'] o IH]; simpl.
  - now rewrite String.eqb_refl.
  - destruct (k' =? k)%string eqn:E; simpl; rewrite E; [reflexivity|exact IH].
Qed.

Lemma obj_get_set_other {V} (o : obj V) k k' v :
  k' <> k -> obj_get (obj_set o k v) k' = obj_get o k'.
Proof.
  intros Hk. induction o as [|[k0 v0] o IH]; simpl.
  - destruct (k =? k')%string eqn:E; [|reflexivity].
    apply String.eqb_eq in E. congruence.
  - destruct (k0 =? k)%string eqn:E; simpl.
    + apply String.eqb_eq in E. subst k0.
      destruct (k =? k')%string eqn:E'; [|reflexivity].
      apply String.eqb_eq in E'. congruence.
    + now rewrite IH.
Qed.

(** The extra headers the selector records: none, or the JSON content
    type. *)
Lemma handleBody_extra o bytes extra :
  handleBody o = Normal (BufferBody bytes extra) ->
  extra = [] \/ extra = [("content-type", HStr "application/json")].
Proof.
  unfold handleBody, resolve_body. destruct (form o); [discriminate|].
  destruct (json o) as [j|]; [destruct (json_truthy j)|]; simpl.
  - intros [= _ <-]. now right.
  - destruct (body o) as [| |[]|n|s| | | | |]; simpl;
      try destruct (n =? 0)%Z; simpl;
      try discriminate; intros [= _ <-]; now left.
  - destruct (body o) as [| |[]|n|s| | | | |]; simpl;
      try destruct (n =? 0)%Z; simpl;
      try discriminate; intros [= _ <-]; now left.
Qed.


Section BodyHeaders.
Variable handleQs : string -> obj value -> string.
Variable basicRequest : Transport.

(** X12.  When the selected body is a buffer and the caller's headers have
    no content-length key (in any case), the [content-length] the transport
    is given is the number of bytes of that buffer, in decimal. *)
Theorem content_length_is_byte_length m u a bytes extra :
  valid_options a = true ->
  duplex (toUpperCase m) = true ->
  handleBody (options_object a) = Normal (BufferBody bytes extra) ->
  Caseless.has (headers_or_empty (options_object a)) "content-length" = None ->
  exists st cfg hs,
    request handleQs basicRequest (VStr m) (VStr u) a = Normal st
    /\ transport_calls (st_trace st) =
       [(toUpperCase m, target handleQs u (options_object a), cfg)]
    /\ t_headers cfg = Some hs
    /\ Caseless.get hs "content-length" = Some (HStr (string_of_nat (length bytes))).
Proof.
  intros Hv Hd Hb HH.
  set (len := string_of_nat (length bytes)).
  assert (Hget : forall B,
             getHeaders (BufferBody bytes extra) = Fulfilled B ->
             Caseless.get
               (merge_headers (headers_or_empty (options_object a)) B)
               "content-length" = Some (HStr len)).
  { intros B HB. simpl in HB. injection HB as <-.
    set (H := headers_or_empty (options_object a)) in *.
    assert (Hone : Caseless.get (H ++ [("content-length", HStr len)])
                     "content-length" = Some (HStr len)).
    { unfold Caseless.get.
      rewrite CaselessFacts.has_app, HH. simpl.
      rewrite obj_get_app, (CaselessFacts.has_None_get _ _ HH). reflexivity. }
    destruct (handleBody_extra _ _ _ Hb) as [->| ->];
      unfold merge_headers; simpl; fold len; rewrite HH;
      rewrite CaselessFacts.set_absent by assumption.
    - exact Hone.
    - destruct (Caseless.has (H ++ [("content-length", HStr len)]) "content-type")
        eqn:Hct; [exact Hone|].
      rewrite CaselessFacts.set_absent by assumption.
      rewrite CaselessFacts.get_app_present; [exact Hone|].
      rewrite CaselessFacts.has_app, HH. discriminate. }
  destruct (request_transport_call handleQs basicRequest m u a
              (BufferBody bytes extra) _ Hv Hd Hb eq_refl)
    as [st [Hst [_ Hcalls]]].
  exists st. eexists. eexists. split; [exact Hst|]. split; [exact Hcalls|].
  split; [reflexivity|]. now apply Hget.
Qed.

(** X13.  When the form's first report is a length, [FormBody.getHeaders]
    resolves with the form's own headers, unchanged but for
    [content-length], which is that length in decimal; later reports,
    errors included, change nothing. *)
Theorem form_length_sets_content_length (f : FormData) err len later :
  fd_length_calls f = (err, len) :: later ->
  truthy err = false ->
  exists B,
    getHeaders (FormBody f) = Fulfilled B
    /\ obj_get B "content-length" = Some (HStr (string_of_Z len))
    /\ (forall k, k <> "content-length"%string ->
                  obj_get B k = obj_get (fd_headers f) k).
Proof.
  intros Hcalls Herr. simpl. unfold FormBodyImpl.getHeaders.
  rewrite Hcalls, run_first_wins. unfold FormBodyImpl.run. simpl.
  rewrite Herr. simpl. eexists. split; [reflexivity|].
  split; [apply obj_get_set_same|].
  intros k Hk. now apply obj_get_set_other.
Qed.

(** X14.  When the form never reports its length, a request that carries it
    asks for the headers and nothing more: the transport is not invoked and
    the promise never settles. *)
Theorem silent_form_never_dispatches m u a f :
  valid_options a = true ->
  duplex (toUpperCase m) = true ->
  form (options_object a) = Some f ->
  fd_length_calls f = [] ->
  exists st,
    request handleQs basicRequest (VStr m) (VStr u) a = Normal st
    /\ st_promise st = Pending
    /\ st_trace st = [EvGetHeaders (FormBody f)].
Proof.
  intros Hv Hd Hf Hcalls.
  assert (Hb : handleBody (options_object a) = Normal (FormBody f)).
  { unfold handleBody. now rewrite Hf. }
  assert (Hh : getHeaders (FormBody f) = Pending).
  { simpl. unfold FormBodyImpl.getHeaders. now rewrite Hcalls. }
  rewrite (request_headers_pending handleQs basicRequest m u a Hv _ Hd Hb Hh).
  eexists. split; [reflexivity|]. split; reflexivity.
Qed.

End BodyHeaders.

(** ** Merging again *)

Section MergeAgain.
Import Caseless CaselessFacts.
Variable B : IncomingHttpHeaders.

Let step (hs : IncomingHttpHeaders) (key : string) : IncomingHttpHeaders :=
  match has hs key with
  | Some _ => hs
  | None =>
      match obj_get B key with
      | Some v => set hs key v
      | None => hs
      end
  end.

Lemma merge_loop_present keys : forall acc,
  (forall k, In k keys -> has acc k <> None) ->
  fold_left step keys acc = acc.
Proof.
  induction keys as [|key keys IH]; intros acc Hall; simpl; [reflexivity|].
  assert (Hkey : step acc key = acc).
  { unfold step. destruct (has acc key) eqn:E; [reflexivity|].
    exfalso. apply (Hall key); [now left|exact E]. }
  rewrite Hkey. apply IH. intros k Hk. apply Hall. now right.
Qed.

Lemma merge_loop_keeps keys acc k :
  has acc k <> None -> has (fold_left step keys acc) k <> None.
Proof.
  intros Hk.
  destruct (merge_step_app acc B keys [] (Forall_nil _)) as [E [HE _]].
  rewrite app_nil_r in HE. unfold step. rewrite HE, has_app.
  destruct (has acc k); [discriminate|congruence].
Qed.

Lemma merge_step_covers acc key :
  obj_get B key <> None -> has (step acc key) key <> None.
Proof.
  intros HB. unfold step. destruct (has acc key) eqn:E; [congruence|].
  destruct (obj_get B key) as [v|]; [|congruence].
  rewrite set_absent, has_app, E by assumption. simpl.
  now rewrite String.eqb_refl.
Qed.

Lemma merge_loop_covers keys : forall acc,
  (forall k, In k keys -> obj_get B k <> None) ->
  forall k, In k keys -> has (fold_left step keys acc) k <> None.
Proof.
  induction keys as [|key keys IH]; intros acc HB k Hk; simpl; [contradiction|].
  destruct Hk as [<-|Hk].
  - apply merge_loop_keeps, merge_step_covers, HB. now left.
  - apply IH; [|exact Hk]. intros k' Hk'. apply HB. now right.
Qed.

Lemma merge_covers_keys (H : IncomingHttpHeaders) key :
  In key (obj_keys B) -> has (merge_headers H B) key <> None.
Proof.
  intros Hkey. apply (merge_loop_covers (obj_keys B) H); [|exact Hkey].
  intros k Hk. destruct (obj_get_keys _ _ Hk) as [v ->]. discriminate.
Qed.

Lemma merge_headers_idem (H : IncomingHttpHeaders) :
  merge_headers (merge_headers H B) B = merge_headers H B.
Proof.
  apply (merge_loop_present (obj_keys B) (merge_headers H B)).
  intros k. apply merge_covers_keys.
Qed.

(** X15.  After the merge every header of the body is present in the map,
    under some spelling of its key, and merging the same body headers a
    second time changes nothing. *)
Theorem merge_covers_and_is_idempotent (H : IncomingHttpHeaders) :
  (forall key, In key (obj_keys B) -> has (merge_headers H B) key <> None)
  /\ merge_headers (merge_headers H B) B = merge_headers H B.
Proof.
  split; [intros key; apply merge_covers_keys|apply merge_headers_idem].
Qed.

End MergeAgain.

Section Reuse.
Variable handleQs : string -> obj value -> string.
Variable basicRequest : Transport.

Lemma with_headers_idem o : with_headers (with_headers o) = with_headers o.
Proof. reflexivity. Qed.

Lemma merged_options_idem o B :
  merged_options (merged_options o B) B = merged_options o B.
Proof.
  unfold merged_options at 1. unfold headers_or_empty. simpl.
  now rewrite merge_headers_idem.
Qed.

(** X16.  A call of [request] writes into the caller's options object, yet
    passing the object it leaves behind to the same call again, against a
    transport that treats equal invocations alike, gives the same calls to
    the collaborators, the same object and the same promise: the headers
    already merged are not merged twice. *)
Theorem request_reuses_its_options method url (o : Options) st :
  request handleQs basicRequest method url (OptObject o) = Normal st ->
  request handleQs basicRequest method url (OptObject (st_options st)) = Normal st.
Proof.
  destruct (typeof method =? "string") eqn:Hm.
  2:{ assert (Hm' : typeof method <> "string").
      { intros E. rewrite E in Hm. discriminate. }
      rewrite !request_bad_method by assumption. now intros [= <-]. }
  apply String.eqb_eq, typeof_string in Hm. destruct Hm as [m ->].
  destruct (typeof url =? "string") eqn:Hu.
  2:{ assert (Hu' : typeof url <> "string").
      { intros E. rewrite E in Hu. discriminate. }
      rewrite !request_bad_url by assumption. now intros [= <-]. }
  apply String.eqb_eq, typeof_string in Hu. destruct Hu as [u ->].
  destruct (duplex (toUpperCase m)) eqn:Hd.
  - destruct (handleBody o) as [b|e] eqn:Hb.
    + destruct (getHeaders b) as [|B|e] eqn:Hh.
      * rewrite (request_headers_pending handleQs basicRequest m u (OptObject o)
                   eq_refl b Hd Hb Hh).
        intros [= <-].
        exact (request_headers_pending handleQs basicRequest m u
                 (OptObject (with_headers o)) eq_refl b Hd Hb Hh).
      * rewrite (request_headers_fulfilled_exact handleQs basicRequest m u
                   (OptObject o) b B eq_refl Hd Hb Hh).
        intros [= <-]. cbn [st_options].
        rewrite (request_headers_fulfilled_exact handleQs basicRequest m u
                   (OptObject (merged_options o B)) b B eq_refl Hd Hb Hh).
        simpl options_object.
        change (target handleQs u (merged_options o B)) with (target handleQs u o).
        now rewrite merged_options_idem.
      * rewrite (request_headers_rejected handleQs basicRequest m u (OptObject o)
                   eq_refl b e Hd Hb Hh).
        intros [= <-].
        exact (request_headers_rejected handleQs basicRequest m u
                 (OptObject (with_headers o)) eq_refl b e Hd Hb Hh).
    + rewrite (request_body_throws handleQs basicRequest m u (OptObject o)
                 eq_refl e Hd Hb).
      intros [= <-].
      exact (request_body_throws handleQs basicRequest m u
               (OptObject (with_headers o)) eq_refl e Hd Hb).
  - destruct (truthy (body o)) eqn:Hb.
    + rewrite (request_bodyless_body handleQs basicRequest m u (OptObject o)
                 eq_refl Hd Hb).
      intros [= <-].
      exact (request_bodyless_body handleQs basicRequest m u
               (OptObject (with_headers o)) eq_refl Hd Hb).
    + rewrite (request_bodyless_ready_exact handleQs basicRequest m u
                 (OptObject o) eq_refl Hd Hb).
      intros [= <-].
      exact (request_bodyless_ready_exact handleQs basicRequest m u
               (OptObject (with_headers o)) eq_refl Hd Hb).
Qed.

End Reuse.

(** * Concrete runs of the further properties *)

Module MoreRuns.
Import Samples MoreSamples.

Lemma transport_error_rejects_run :
  st_promise
    (the_state
       (request keep_url
          (transport_with None
             [(VError ErrorK "ECONNREFUSED", None); (VNull, Some hello)])
          (VStr "get") (VStr "http://x/") (OptValue VUndefined))) =
  Rejected (VError ErrorK "ECONNREFUSED").
Proof.
  eapply (transport_error_rejects keep_url
            (transport_with None
               [(VError ErrorK "ECONNREFUSED", None); (VNull, Some hello)])
            (VStr "get") (VStr "http://x/") (OptValue VUndefined)).
  - reflexivity.
  - simpl. left. reflexivity.
  - reflexivity.
  - reflexivity.
Defined.

Lemma missing_response_rejects_run :
  st_promise
    (the_state
       (request keep_url (transport_with None [(VNull, None); (VNull, Some hello)])
          (VStr "get") (VStr "http://x/") (OptValue VUndefined))) =
  Rejected (VError ErrorK "No request was received").
Proof.
  eapply (missing_response_rejects keep_url
            (transport_with None [(VNull, None); (VNull, Some hello)])
            (VStr "get") (VStr "http://x/") (OptValue VUndefined)).
  - reflexivity.
  - simpl. left. reflexivity.
  - reflexivity.
  - reflexivity.
Defined.




Lemma bodyless_verb_sends_no_body_run :
  exists st cfg,
    request keep_url answering (VStr "head") (VStr "http://x/")
      (OptObject (options_with VUndefined (Some a1) (Some sized_form) None)) =
    Normal st
    /\ st_trace st =
       [EvBasicRequest (toUpperCase "head")
          (target keep_url "http://x/"
             (options_object
                (OptObject
                   (options_with VUndefined (Some a1) (Some sized_form) None))))
          cfg]
    /\ t_headers cfg =
       Some
         (headers_or_empty
            (options_object
               (OptObject
                  (options_with VUndefined (Some a1) (Some sized_form) None)))).
Proof.
  apply (bodyless_verb_sends_no_body keep_url answering "head" "http://x/"
           (OptObject (options_with VUndefined (Some a1) (Some sized_form) None))).
  - reflexivity.
  - simpl. tauto.
  - reflexivity.
Defined.

Lemma transport_configuration_run :
  t_headers
    (transport_options
       (options_with VUndefined None None (Some []))) <> None
  /\ (t_followRedirects
        (transport_options (options_with VUndefined None None (Some []))) = false
      <-> followRedirects (options_object (OptValue VUndefined)) = VBool false).
Proof.
  destruct (transport_configuration keep_url answering
              (VStr "get") (VStr "http://x/") (OptValue VUndefined)
              (the_state
                 (request keep_url answering (VStr "get") (VStr "http://x/")
                    (OptValue VUndefined)))
              "GET" "http://x/"
              (transport_options (options_with VUndefined None None (Some []))))
    as (Hh & Hf & _).
  - reflexivity.
  - simpl. left. reflexivity.
  - split; [exact Hh|exact Hf].
Defined.

Lemma transport_verb_and_target_run :
  exists m u,
    VStr "patch" = VStr m /\ VStr "http://x/" = VStr u
    /\ "PATCH"%string = toUpperCase m
    /\ toUpperCase "PATCH" = "PATCH"%string
    /\ "http://x/?q"%string =
       match qs (options_object (OptObject with_query)) with
       | Some q => mark_qs u q
       | None => u
       end.
Proof.
  eapply (transport_verb_and_target mark_qs answering
            (VStr "patch") (VStr "http://x/") (OptObject with_query)).
  - reflexivity.
  - simpl. left. reflexivity.
Defined.


Lemma content_length_is_byte_length_run :
  exists st cfg hs,
    request keep_url answering (VStr "put") (VStr "http://x/")
      (OptObject
         (options_with (VStr "hi") None None (Some [("Accept", HStr "*/*")]))) =
    Normal st
    /\ transport_calls (st_trace st) =
       [(toUpperCase "put",
         target keep_url "http://x/"
           (options_object
              (OptObject
                 (options_with (VStr "hi") None None
                    (Some [("Accept", HStr "*/*")])))), cfg)]
    /\ t_headers cfg = Some hs
    /\ Caseless.get hs "content-length" =
       Some (HStr (string_of_nat (length [x68; x69]))).
Proof.
  apply (content_length_is_byte_length keep_url answering "put" "http://x/"
           (OptObject
              (options_with (VStr "hi") None None (Some [("Accept", HStr "*/*")])))
           [x68; x69] []); reflexivity.
Defined.

Lemma form_length_sets_content_length_run :
  exists B,
    getHeaders (FormBody sized_form) = Fulfilled B
    /\ obj_get B "content-length" = Some (HStr (string_of_Z 42))
    /\ (forall k, k <> "content-length"%string ->
                  obj_get B k = obj_get (fd_headers sized_form) k).
Proof.
  apply (form_length_sets_content_length sized_form VNull 42%Z
           [(VStr "late", 0%Z)]); reflexivity.
Defined.

Lemma silent_form_never_dispatches_run :
  exists st,
    request keep_url answering (VStr "post") (VStr "http://x/")
      (OptObject (options_with VUndefined None (Some silent_form) None)) =
    Normal st
    /\ st_promise st = Pending
    /\ st_trace st = [EvGetHeaders (FormBody silent_form)].
Proof.
  apply (silent_form_never_dispatches keep_url answering "post" "http://x/"
           (OptObject (options_with VUndefined None (Some silent_form) None))
           silent_form); reflexivity.
Defined.

Lemma merge_covers_and_is_idempotent_run :
  Caseless.has
    (merge_headers [("Content-Type", HStr "text/plain")]
       [("content-length", HStr "2"); ("content-type", HStr "application/json")])
    "content-type" <> None.
Proof.
  apply (proj1 (merge_covers_and_is_idempotent
                  [("content-length", HStr "2");
                   ("content-type", HStr "application/json")]
                  [("Content-Type", HStr "text/plain")])).
  simpl. tauto.
Defined.

Lemma request_reuses_its_options_run :
  request keep_url answering (VStr "post") (VStr "http://x/")
    (OptObject
       (st_options
          (the_state
             (request keep_url answering (VStr "post") (VStr "http://x/")
                (OptObject (options_with (VStr "hi") (Some a1) None None)))))) =
  Normal
    (the_state
       (request keep_url answering (VStr "post") (VStr "http://x/")
          (OptObject (options_with (VStr "hi") (Some a1) None None)))).
Proof.
  apply (request_reuses_its_options keep_url answering
           (VStr "post") (VStr "http://x/")
           (options_with (VStr "hi") (Some a1) None None)).
  reflexivity.
Defined.

End MoreRuns.
